(** * cust_etl: the SpecForge analytics pipeline

    A shallow embedding of [src/pipelines/cust_etl/pipeline.py].

    The program is a PySpark job.  A DataFrame is modelled as the list of
    its rows (Spark gives no order guarantee, so every statement about a
    result is up to permutation or about membership and counts), each
    fixed schema as a record, a nullable column as an [option], and the
    Spark SQL built-ins the job calls ([INSTR], [substring], [concat],
    inner [join], [groupBy]/[count], [cast]) as functions that follow the
    engine's documented evaluation rules.  Evaluation is modelled as
    strict: one run reads each source table once.

    Column nullability follows the data model: the key columns [id] of
    both source tables are not null, the owner column of [projects] and
    the [email] column are nullable.

    The length argument of [substring] is the column expression
    [INSTR(email, '@') - 1], evaluated row by row.  The program leaves
    [spark.sql.ansi.enabled] at the engine's default, so the setting is
    a parameter: it decides whether the cast of a count that does not
    fit [IntegerType] raises or wraps around. *)

From Stdlib Require Import List ZArith Lia Bool Ascii String Permutation.
Import ListNotations.

Local Open Scope string_scope.
Local Open Scope Z_scope.

(** ** Spark SQL scalar built-ins *)

Module SparkSQL.

(** Range of [IntegerType] (a Java [int]). *)
Definition INT_MIN : Z := -2147483648.
Definition INT_MAX : Z := 2147483647.

(** [UTF8String.indexOf(sub, 0) + 1]: the 1-based position of the
    first occurrence of [substr] in [str], and 0 when there is none. *)
Definition instr (str substr : string) : Z :=
  match index 0 substr str with
  | Some n => Z.of_nat n + 1
  | None => 0
  end.

(** [UTF8String.substring(start, until)]: the characters at positions
    [start] (inclusive) to [until] (exclusive), empty when the range is
    empty or starts past the end; a negative [start] reads from 0. *)
Definition substring_range (s : string) (start until : Z) : string :=
  let n := Z.of_nat (length s) in
  if (until <=? start) || (n <=? start) then ""
  else
    let from := Z.max 0 start in
    substring (Z.to_nat from) (Z.to_nat (Z.min until n - from)) s.

(** [UTF8String.substringSQL(pos, length)]: positions start at 1, a
    position 0 is read as 1, a negative one counts from the end.  The
    engine computes on [int] and saturates [start + length] at the
    [int] bounds; on unbounded integers the sum is exact. *)
Definition substringSQL (s : string) (pos len : Z) : string :=
  let n := Z.of_nat (length s) in
  let start :=
    if 0 <? pos then pos - 1 else if pos <? 0 then n + pos else 0 in
  substring_range s start (start + len).

(** Null propagation: a built-in applied to NULL is NULL. *)
Definition lift2 {A B C} (f : A -> B -> C)
           (a : option A) (b : option B) : option C :=
  match a, b with
  | Some x, Some y => Some (f x y)
  | _, _ => None
  end.

Definition lift3 {A B C D} (f : A -> B -> C -> D)
           (a : option A) (b : option B) (c : option C) : option D :=
  match a, b, c with
  | Some x, Some y, Some z => Some (f x y z)
  | _, _, _ => None
  end.

Definition INSTR := lift2 instr.
Definition SUBSTRING := lift3 substringSQL.
Definition CONCAT := lift2 append.
Definition MINUS := lift2 Z.sub.
Definition lit {A} (a : A) : option A := Some a.

(** [EqualTo]: NULL when either side is NULL. *)
Definition EQ := lift2 Z.eqb.

(** A predicate keeps a row only when it evaluates to true. *)
Definition is_true (c : option bool) : bool :=
  match c with Some true => true | _ => false end.

(** Java's narrowing of a [long] to an [int]: the low 32 bits, read as
    a signed number. *)
Definition int_wrap (z : Z) : Z :=
  (z - INT_MIN) mod 4294967296 + INT_MIN.

(** [cast(... as int)] of a [LongType] value.  Out of range, the cast
    overflows: with [spark.sql.ansi.enabled] it raises, without it it
    wraps around. *)
Definition cast_long_to_int (ansi : bool) (z : Z) : option Z :=
  if (INT_MIN <=? z) && (z <=? INT_MAX) then Some z
  else if ansi then None
  else Some (int_wrap z).

End SparkSQL.

(** ** Failures and fallible results *)

(** What a stage can raise.  The program catches [Exception], logs it and
    raises it again unchanged, so a failure keeps its identity from the
    stage that raised it up to the caller. *)
Inductive Failure :=
| EngineInitFailed
| SourceUnavailable (table : string)
| CastOverflow
| SinkWriteFailed
| StageError (message : string).

Inductive result (A : Type) :=
| Ok (a : A)
| Raise (e : Failure).
Arguments Ok {A} a.
Arguments Raise {A} e.

Definition is_ok {A} (r : result A) : bool :=
  match r with Ok _ => true | Raise _ => false end.

(** All-or-nothing map over a list: the first failure is the result. *)
Fixpoint map_result {A B} (f : A -> result B) (l : list A)
  : result (list B) :=
  match l with
  | [] => Ok []
  | a :: l' =>
      match f a with
      | Raise e => Raise e
      | Ok b => match map_result f l' with
                | Raise e => Raise e
                | Ok bs => Ok (b :: bs)
                end
      end
  end.

(** ** Row types of the pipeline *)

(** Rows of [public.users]: the two columns the job selects, and the
    columns it does not look at. *)
Module UsersTable.
Record row := mk {
  id : Z;
  email : option string;
  other_columns : list (string * string)
}.
End UsersTable.

(** Rows of [public.projects]. *)
Module ProjectsTable.
Record row := mk {
  id : Z;
  user_id : option Z;
  other_columns : list (string * string)
}.
End ProjectsTable.

(** Output of [read_source_users]: columns [id], [email]. *)
Module User.
Record row := mk { id : Z; email : option string }.
Definition columns : list string := ["id"; "email"].
End User.

(** Output of [read_source_projects]: columns [project_id], [p_user_id]. *)
Module Project.
Record row := mk { project_id : Z; p_user_id : option Z }.
Definition columns : list string := ["project_id"; "p_user_id"].
End Project.

(** Output of [apply_expression_mask_data]: columns [user_id],
    [MASKED_EMAIL]. *)
Module Masked.
Record row := mk { user_id : Z; MASKED_EMAIL : option string }.
Definition columns : list string := ["user_id"; "MASKED_EMAIL"].
End Masked.

(** Output of [apply_joiner_user_projects]: columns [user_id],
    [MASKED_EMAIL], [project_id]. *)
Module Joined.
Record row := mk {
  user_id : Z;
  MASKED_EMAIL : option string;
  project_id : Z
}.
End Joined.

(** Output of [apply_aggregator_project_count], and rows of the
    destination table: columns [USER_ID], [MASKED_EMAIL],
    [TOTAL_PROJECTS]. *)
Module Aggregated.
Record row := mk {
  USER_ID : Z;
  MASKED_EMAIL : option string;
  TOTAL_PROJECTS : Z
}.
End Aggregated.

(** ** read_source_users, read_source_projects: the projections *)

(** [.select(col("id"), col("email"))] *)
Definition select_users (t : list UsersTable.row) : list User.row :=
  map (fun r => User.mk (UsersTable.id r) (UsersTable.email r)) t.

(** [.select(col("id").alias("project_id"),
             col("user_id").alias("p_user_id"))] *)
Definition select_projects (t : list ProjectsTable.row) : list Project.row :=
  map (fun r => Project.mk (ProjectsTable.id r) (ProjectsTable.user_id r)) t.

(** ** apply_expression_mask_data *)

(** The column expression
    [concat(substring(email, 1, INSTR(email, '@') - 1), lit("@***.com"))]. *)
Definition mask_expr (email : option string) : option string :=
  SparkSQL.CONCAT
    (SparkSQL.SUBSTRING email
       (SparkSQL.lit 1)
       (SparkSQL.MINUS (SparkSQL.INSTR email (SparkSQL.lit "@"))
                       (SparkSQL.lit 1)))
    (SparkSQL.lit "@***.com").

(** [withColumn("user_id", id)], [withColumn("MASKED_EMAIL", ...)], then
    [select("user_id", "MASKED_EMAIL")]. *)
Definition apply_expression_mask_data
           (df_users : list User.row) : list Masked.row :=
  map (fun r => Masked.mk (User.id r) (mask_expr (User.email r))) df_users.

(** *** The masking rule in the words of the specification *)

(** The characters of [s] strictly before the first occurrence of [c]
    (all of [s] when [c] does not occur). *)
Fixpoint before_first (c : ascii) (s : string) : string :=
  match s with
  | EmptyString => EmptyString
  | String a s' => if Ascii.eqb a c then EmptyString
                   else String a (before_first c s')
  end.

Fixpoint occurs (c : ascii) (s : string) : bool :=
  match s with
  | EmptyString => false
  | String a s' => Ascii.eqb a c || occurs c s'
  end.

Definition at_sign : ascii := "@"%char.

Definition contains_at (e : string) : Prop := occurs at_sign e = true.

Definition local_part (e : string) : string := before_first at_sign e.

(** ** apply_joiner_user_projects *)

(** The join condition [user_id == p_user_id]; a row pair is kept when
    it evaluates to true, so a NULL owner matches no user. *)
Definition join_condition (u : Masked.row) (p : Project.row) : bool :=
  SparkSQL.is_true
    (SparkSQL.EQ (SparkSQL.lit (Masked.user_id u)) (Project.p_user_id p)).

(** [.select(users["user_id"], users["MASKED_EMAIL"],
             projects["project_id"])] on a joined pair. *)
Definition joined_row (u : Masked.row) (p : Project.row) : Joined.row :=
  Joined.mk (Masked.user_id u) (Masked.MASKED_EMAIL u) (Project.project_id p).

(** Inner join, master [df_users_masked], detail [df_projects]. *)
Definition apply_joiner_user_projects
           (df_users_masked : list Masked.row)
           (df_projects : list Project.row) : list Joined.row :=
  flat_map
    (fun u => map (joined_row u) (filter (join_condition u) df_projects))
    df_users_masked.

(** ** apply_aggregator_project_count *)

(** The grouping key [(user_id, MASKED_EMAIL)].  Grouping compares keys
    null-safely: two NULL emails fall in the same group. *)
Definition GroupKey : Type := Z * option string.

Definition group_key (r : Joined.row) : GroupKey :=
  (Joined.user_id r, Joined.MASKED_EMAIL r).

Definition option_string_eqb (a b : option string) : bool :=
  match a, b with
  | Some x, Some y => String.eqb x y
  | None, None => true
  | _, _ => false
  end.

Definition group_key_eqb (a b : GroupKey) : bool :=
  (fst a =? fst b) && option_string_eqb (snd a) (snd b).

(** One step of the hash aggregate for [count(project_id)]: the row's
    group gets its counter incremented, a new group starts at 1.
    [project_id] is not null, so every row counts. *)
Fixpoint update_buffer (k : GroupKey) (buffer : list (GroupKey * Z))
  : list (GroupKey * Z) :=
  match buffer with
  | [] => [(k, 1)]
  | (k', c) :: rest =>
      if group_key_eqb k k' then (k', c + 1) :: rest
      else (k', c) :: update_buffer k rest
  end.

(** [groupBy("user_id", "MASKED_EMAIL").agg(count("project_id"))]:
    the counters are [LongType]. *)
Definition group_count (df_joined : list Joined.row)
  : list (GroupKey * Z) :=
  fold_left (fun buffer r => update_buffer (group_key r) buffer)
            df_joined [].

(** The final [select]: [USER_ID], [MASKED_EMAIL],
    [TOTAL_PROJECTS.cast(IntegerType())]. *)
Definition aggregated_row (ansi : bool) (g : GroupKey * Z)
  : result Aggregated.row :=
  match SparkSQL.cast_long_to_int ansi (snd g) with
  | Some total => Ok (Aggregated.mk (fst (fst g)) (snd (fst g)) total)
  | None => Raise CastOverflow
  end.

(** [ansi] is the session's [spark.sql.ansi.enabled], which the program
    leaves at the engine's default. *)
Definition apply_aggregator_project_count
           (ansi : bool) (df_joined : list Joined.row)
  : result (list Aggregated.row) :=
  map_result (aggregated_row ansi) (group_count df_joined).

(** The three transforms composed, as the orchestrator chains them. *)
Definition transform (ansi : bool)
           (df_users : list User.row) (df_projects : list Project.row)
  : result (list Aggregated.row) :=
  apply_aggregator_project_count ansi
    (apply_joiner_user_projects
       (apply_expression_mask_data df_users) df_projects).

(** The number of rows of [df_joined] in the group of key [k]. *)
Definition group_size (k : GroupKey) (df_joined : list Joined.row) : Z :=
  Z.of_nat (List.length (filter (fun r => group_key_eqb (group_key r) k)
                                df_joined)).

(** *** The aggregation contract in the words of the specification *)

Definition aggregated_key (a : Aggregated.row) : GroupKey :=
  (Aggregated.USER_ID a, Aggregated.MASKED_EMAIL a).

(** The aggregation returns a result; it has one row per distinct group
    key; and its rows are exactly, for each joined row, the row's key
    with the number of joined rows that share it. *)
Definition aggregation_contract (ansi : bool) (df_joined : list Joined.row)
  : Prop :=
  exists out,
    apply_aggregator_project_count ansi df_joined = Ok out /\
    NoDup (map aggregated_key out) /\
    forall a,
      In a out <->
      exists r, In r df_joined /\
                a = Aggregated.mk (Joined.user_id r) (Joined.MASKED_EMAIL r)
                                  (group_size (group_key r) df_joined).

(** One group of 2^31 rows: a user who owns that many project rows. *)
Definition oversized_group : list Joined.row :=
  repeat (Joined.mk 1 (Some "a@***.com") 10) (Z.to_nat 2147483648).

(** *** Bookkeeping for the proofs about the hash aggregate *)

(** The counter kept for a key, 0 when the key has no group yet. *)
Fixpoint counter (k : GroupKey) (buffer : list (GroupKey * Z)) : Z :=
  match buffer with
  | [] => 0
  | (k', c) :: rest => if group_key_eqb k k' then c else counter k rest
  end.

(** The aggregate run from a given buffer. *)
Definition aggregate_from (buffer : list (GroupKey * Z))
           (rows : list Joined.row) : list (GroupKey * Z) :=
  fold_left (fun b r => update_buffer (group_key r) b) rows buffer.

(** The row the aggregation emits for a group whose count fits an
    [int]. *)
Definition counted_row (g : GroupKey * Z) : Aggregated.row :=
  Aggregated.mk (fst (fst g)) (snd (fst g)) (snd g).

(** ** The world outside the program *)

(** The PostgreSQL database behind the JDBC URL; a table that does not
    exist is [None]. *)
Record Database := mkDatabase {
  users : option (list UsersTable.row);
  projects : option (list ProjectsTable.row);
  USER_PROJECT_ANALYTICS : option (list Aggregated.row)
}.

(** What a run depends on and what it changes. *)
Record World := mkWorld {
  engine_available : bool;      (* a Spark session can be created *)
  ansi_enabled : bool;          (* the engine's spark.sql.ansi.enabled *)
  accepts : string -> string -> string -> bool;
                                (* the server lets in (url, user, password) *)
  sink_writable : bool;         (* the destination table can be replaced *)
  database : Database;
  session_running : bool;
  jdbc_connections : nat        (* connection attempts made so far *)
}.

Record SparkSession := mkSession { appName : string }.

(** The dict [{"user": .., "password": .., "driver": ..}]. *)
Record ConnectionProperties := mkProperties {
  user : string;
  password : string;
  driver : string
}.

Definition Stage (W A : Type) : Type := W -> result A * W.

Definition connect (w : World) : World :=
  mkWorld (engine_available w) (ansi_enabled w) (accepts w)
          (sink_writable w) (database w) (session_running w)
          (S (jdbc_connections w)).

Definition set_session (running : bool) (w : World) : World :=
  mkWorld (engine_available w) (ansi_enabled w) (accepts w)
          (sink_writable w) (database w) running (jdbc_connections w).

Definition set_database (d : Database) (w : World) : World :=
  mkWorld (engine_available w) (ansi_enabled w) (accepts w)
          (sink_writable w) d (session_running w) (jdbc_connections w).

Definition authorized (w : World) (jdbc_url : string)
           (connection_properties : ConnectionProperties) : bool :=
  accepts w jdbc_url (user connection_properties)
          (password connection_properties).

(** ** The stages that touch the world *)

(** [SparkSession.builder.appName(app_name)...getOrCreate()] *)
Definition initialize_spark (app_name : string) : Stage World SparkSession :=
  fun w =>
    if engine_available w
    then (Ok (mkSession app_name), set_session true w)
    else (Raise EngineInitFailed, w).

(** [spark.read.jdbc(url, "public.users", properties).select(...)] *)
Definition read_source_users (spark : SparkSession) (jdbc_url : string)
           (connection_properties : ConnectionProperties)
  : Stage World (list User.row) :=
  fun w =>
    let w' := connect w in
    if authorized w jdbc_url connection_properties then
      match users (database w) with
      | Some t => (Ok (select_users t), w')
      | None => (Raise (SourceUnavailable "public.users"), w')
      end
    else (Raise (SourceUnavailable "public.users"), w').

(** [spark.read.jdbc(url, "public.projects", properties).select(...)] *)
Definition read_source_projects (spark : SparkSession) (jdbc_url : string)
           (connection_properties : ConnectionProperties)
  : Stage World (list Project.row) :=
  fun w =>
    let w' := connect w in
    if authorized w jdbc_url connection_properties then
      match projects (database w) with
      | Some t => (Ok (select_projects t), w')
      | None => (Raise (SourceUnavailable "public.projects"), w')
      end
    else (Raise (SourceUnavailable "public.projects"), w').

(** [df_final.write.jdbc(url, "public.USER_PROJECT_ANALYTICS",
                         mode="overwrite", properties)] *)
Definition write_target_user_project_analytics
           (df_final : list Aggregated.row) (jdbc_url : string)
           (connection_properties : ConnectionProperties)
  : Stage World unit :=
  fun w =>
    let w' := connect w in
    if authorized w jdbc_url connection_properties && sink_writable w then
      (Ok tt,
       set_database
         (mkDatabase (users (database w)) (projects (database w))
                     (Some df_final)) w')
    else (Raise SinkWriteFailed, w').

(** [spark.stop()] *)
Definition spark_stop (spark : SparkSession) (w : World) : World :=
  set_session false w.

(** The transforms as stages: they leave the world alone. *)
Definition pure_stage {W A} (a : A) : Stage W A := fun w => (Ok a, w).

Definition mask_stage (df_users : list User.row)
  : Stage World (list Masked.row) :=
  pure_stage (apply_expression_mask_data df_users).

Definition join_stage (df_masked : list Masked.row)
           (df_projects : list Project.row)
  : Stage World (list Joined.row) :=
  pure_stage (apply_joiner_user_projects df_masked df_projects).

Definition aggregate_stage (df_joined : list Joined.row)
  : Stage World (list Aggregated.row) :=
  fun w => (apply_aggregator_project_count (ansi_enabled w) df_joined, w).

(** ** run_specforge_analytics_etl *)

Inductive Component :=
| Engine | UsersReader | ProjectsReader | Masking | Joiner | Aggregator
| SinkWriter.

(** The record of a run: which component was entered, and the release
    of the session. *)
Inductive Event :=
| Invoked (c : Component)
| Stopped.

Definition pipeline_order : list Event :=
  [Invoked Engine; Invoked UsersReader; Invoked ProjectsReader;
   Invoked Masking; Invoked Joiner; Invoked Aggregator; Invoked SinkWriter].

Section Orchestrator.

Context {W Session UsersDF ProjectsDF MaskedDF JoinedDF AggregatedDF : Type}.

(** The orchestrator's state: the world and the record of the run. *)
Definition Step (A : Type) : Type :=
  W * list Event -> result A * (W * list Event).

Definition invoke {A} (c : Component) (stage : Stage W A) : Step A :=
  fun st =>
    let (r, w') := stage (fst st) in
    (r, (w', snd st ++ [Invoked c])%list).

(** Sequencing inside [try]: a raised failure skips what follows. *)
Definition bind {A B} (m : Step A) (k : A -> Step B) : Step B :=
  fun st =>
    match m st with
    | (Ok a, st') => k a st'
    | (Raise e, st') => (Raise e, st')
    end.

Variable init : string -> Stage W Session.
Variable read_users :
  Session -> string -> ConnectionProperties -> Stage W UsersDF.
Variable read_projects :
  Session -> string -> ConnectionProperties -> Stage W ProjectsDF.
Variable mask : UsersDF -> Stage W MaskedDF.
Variable join : MaskedDF -> ProjectsDF -> Stage W JoinedDF.
Variable aggregate : JoinedDF -> Stage W AggregatedDF.
Variable write :
  AggregatedDF -> string -> ConnectionProperties -> Stage W unit.
Variable stop : Session -> W -> W.

Local Notation "x <- m ;; k" := (bind m (fun x => k))
  (at level 61, m at next level, right associativity).

(** The body of [try] after the session is there. *)
Definition pipeline_body (spark : Session)
           (jdbc_url db_user db_password : string) : Step unit :=
  let connection_properties :=
    mkProperties db_user db_password "org.postgresql.Driver" in
  df_users <-
    invoke UsersReader (read_users spark jdbc_url connection_properties) ;;
  df_projects <-
    invoke ProjectsReader
           (read_projects spark jdbc_url connection_properties) ;;
  df_masked <- invoke Masking (mask df_users) ;;
  df_joined <- invoke Joiner (join df_masked df_projects) ;;
  df_aggregated <- invoke Aggregator (aggregate df_joined) ;;
  invoke SinkWriter (write df_aggregated jdbc_url connection_properties).

(** [finally: if spark: spark.stop()] *)
Definition teardown (spark : option Session) (st : W * list Event)
  : W * list Event :=
  match spark with
  | Some s => (stop s (fst st), (snd st ++ [Stopped])%list)
  | None => st
  end.

(** [spark = None; try: ... except Exception: raise; finally: ...].
    The local [spark] is what [finally] looks at. *)
Definition run_pipeline (jdbc_url db_user db_password : string)
  : Step unit :=
  fun st =>
    let '(spark, (r, st')) :=
      match invoke Engine (init "wkf_SpecForge_Analytics") st with
      | (Raise e, st1) => (None, (Raise e, st1))
      | (Ok spark, st1) =>
          (Some spark,
           pipeline_body spark jdbc_url db_user db_password st1)
      end in
    (r, teardown spark st').

(** *** The paths of a run, in the words of the specification

    [Uninitialized -> EngineStarted -> UsersRead -> ProjectsRead ->
     Masked -> Joined -> Aggregated -> Written -> EngineStopped], any
    step's failure going straight to [EngineStopped].  [run_path w0 r
    w tr] reads: started in world [w0], the run ends with result [r]
    in world [w], having entered the components [tr]. *)
Inductive run_path (jdbc_url db_user db_password : string) (w0 : W)
  : result unit -> W -> list Event -> Prop :=
| engine_fails e w1 :
    init "wkf_SpecForge_Analytics" w0 = (Raise e, w1) ->
    run_path jdbc_url db_user db_password w0
             (Raise e) w1 (firstn 1 pipeline_order)
| users_read_fails spark w1 e w2 :
    init "wkf_SpecForge_Analytics" w0 = (Ok spark, w1) ->
    read_users spark jdbc_url
      (mkProperties db_user db_password "org.postgresql.Driver") w1
    = (Raise e, w2) ->
    run_path jdbc_url db_user db_password w0
             (Raise e) (stop spark w2)
             (firstn 2 pipeline_order ++ [Stopped])
| projects_read_fails spark w1 df_users w2 e w3 :
    init "wkf_SpecForge_Analytics" w0 = (Ok spark, w1) ->
    read_users spark jdbc_url
      (mkProperties db_user db_password "org.postgresql.Driver") w1
    = (Ok df_users, w2) ->
    read_projects spark jdbc_url
      (mkProperties db_user db_password "org.postgresql.Driver") w2
    = (Raise e, w3) ->
    run_path jdbc_url db_user db_password w0
             (Raise e) (stop spark w3)
             (firstn 3 pipeline_order ++ [Stopped])
| mask_fails spark w1 df_users w2 df_projects w3 e w4 :
    init "wkf_SpecForge_Analytics" w0 = (Ok spark, w1) ->
    read_users spark jdbc_url
      (mkProperties db_user db_password "org.postgresql.Driver") w1
    = (Ok df_users, w2) ->
    read_projects spark jdbc_url
      (mkProperties db_user db_password "org.postgresql.Driver") w2
    = (Ok df_projects, w3) ->
    mask df_users w3 = (Raise e, w4) ->
    run_path jdbc_url db_user db_password w0
             (Raise e) (stop spark w4)
             (firstn 4 pipeline_order ++ [Stopped])
| join_fails spark w1 df_users w2 df_projects w3 df_masked w4 e w5 :
    init "wkf_SpecForge_Analytics" w0 = (Ok spark, w1) ->
    read_users spark jdbc_url
      (mkProperties db_user db_password "org.postgresql.Driver") w1
    = (Ok df_users, w2) ->
    read_projects spark jdbc_url
      (mkProperties db_user db_password "org.postgresql.Driver") w2
    = (Ok df_projects, w3) ->
    mask df_users w3 = (Ok df_masked, w4) ->
    join df_masked df_projects w4 = (Raise e, w5) ->
    run_path jdbc_url db_user db_password w0
             (Raise e) (stop spark w5)
             (firstn 5 pipeline_order ++ [Stopped])
| aggregate_fails spark w1 df_users w2 df_projects w3 df_masked w4
                  df_joined w5 e w6 :
    init "wkf_SpecForge_Analytics" w0 = (Ok spark, w1) ->
    read_users spark jdbc_url
      (mkProperties db_user db_password "org.postgresql.Driver") w1
    = (Ok df_users, w2) ->
    read_projects spark jdbc_url
      (mkProperties db_user db_password "org.postgresql.Driver") w2
    = (Ok df_projects, w3) ->
    mask df_users w3 = (Ok df_masked, w4) ->
    join df_masked df_projects w4 = (Ok df_joined, w5) ->
    aggregate df_joined w5 = (Raise e, w6) ->
    run_path jdbc_url db_user db_password w0
             (Raise e) (stop spark w6)
             (firstn 6 pipeline_order ++ [Stopped])
| write_fails spark w1 df_users w2 df_projects w3 df_masked w4
              df_joined w5 df_aggregated w6 e w7 :
    init "wkf_SpecForge_Analytics" w0 = (Ok spark, w1) ->
    read_users spark jdbc_url
      (mkProperties db_user db_password "org.postgresql.Driver") w1
    = (Ok df_users, w2) ->
    read_projects spark jdbc_url
      (mkProperties db_user db_password "org.postgresql.Driver") w2
    = (Ok df_projects, w3) ->
    mask df_users w3 = (Ok df_masked, w4) ->
    join df_masked df_projects w4 = (Ok df_joined, w5) ->
    aggregate df_joined w5 = (Ok df_aggregated, w6) ->
    write df_aggregated jdbc_url
      (mkProperties db_user db_password "org.postgresql.Driver") w6
    = (Raise e, w7) ->
    run_path jdbc_url db_user db_password w0
             (Raise e) (stop spark w7)
             (firstn 7 pipeline_order ++ [Stopped])
| completes spark w1 df_users w2 df_projects w3 df_masked w4
            df_joined w5 df_aggregated w6 w7 :
    init "wkf_SpecForge_Analytics" w0 = (Ok spark, w1) ->
    read_users spark jdbc_url
      (mkProperties db_user db_password "org.postgresql.Driver") w1
    = (Ok df_users, w2) ->
    read_projects spark jdbc_url
      (mkProperties db_user db_password "org.postgresql.Driver") w2
    = (Ok df_projects, w3) ->
    mask df_users w3 = (Ok df_masked, w4) ->
    join df_masked df_projects w4 = (Ok df_joined, w5) ->
    aggregate df_joined w5 = (Ok df_aggregated, w6) ->
    write df_aggregated jdbc_url
      (mkProperties db_user db_password "org.postgresql.Driver") w6
    = (Ok tt, w7) ->
    run_path jdbc_url db_user db_password w0
             (Ok tt) (stop spark w7) (pipeline_order ++ [Stopped]).

End Orchestrator.

Definition run_specforge_analytics_etl
           (jdbc_url db_user db_password : string) : Step unit :=
  run_pipeline initialize_spark read_source_users read_source_projects
               mask_stage join_stage aggregate_stage
               write_target_user_project_analytics spark_stop
               jdbc_url db_user db_password.

(** ** The entry point *)

Record Exit := mkExit {
  exit_status : Z;
  stdout : list string;
  final_world : World;
  events : list Event
}.

Definition usage : list string :=
  ["Usage: python specforge_analytics_etl.py <jdbc_url> <db_user> <db_password>";
   "Example: python specforge_analytics_etl.py jdbc:postgresql://localhost:5432/SpecForge_DB admin password123"].

(** The [__main__] block; [argv] is [sys.argv], script name first.  An
    exception that leaves the program ends the process with status 1. *)
Definition main (argv : list string) (w : World) : Exit :=
  if (List.length argv <? 4)%nat then
    mkExit 1 usage w []
  else
    let jdbc_url := nth 1 argv "" in
    let db_user := nth 2 argv "" in
    let db_password := nth 3 argv "" in
    let (r, st) :=
      run_specforge_analytics_etl jdbc_url db_user db_password (w, []) in
    mkExit (if is_ok r then 0 else 1) [] (fst st) (snd st).

(** ** The end-to-end scenario of the specification *)

Definition scenario_users : list User.row :=
  [User.mk 1 (Some "a@x.com"); User.mk 2 (Some "b@y.com")].

Definition scenario_projects : list Project.row :=
  [Project.mk 10 (Some 1); Project.mk 11 (Some 1); Project.mk 12 (Some 2)].

Definition scenario_expected : list Aggregated.row :=
  [Aggregated.mk 1 (Some "a@***.com") 2;
   Aggregated.mk 2 (Some "b@***.com") 1].

(** A database that holds the scenario's rows, other columns and an old
    destination row included, and a world in which the run can go
    through. *)
Definition scenario_database : Database :=
  mkDatabase
    (Some [UsersTable.mk 1 (Some "a@x.com") [("name", "Ann")];
           UsersTable.mk 2 (Some "b@y.com") [("name", "Bob")]])
    (Some [ProjectsTable.mk 10 (Some 1) [("title", "p10")];
           ProjectsTable.mk 11 (Some 1) [];
           ProjectsTable.mk 12 (Some 2) []])
    (Some [Aggregated.mk 7 (Some "old@***.com") 3]).

Definition scenario_world : World :=
  mkWorld true true
          (fun url u p =>
             String.eqb url "jdbc:postgresql://localhost:5432/SpecForge_DB"
             && String.eqb u "admin" && String.eqb p "password123")
          true scenario_database false 0.

(** ** Vocabulary for the properties of the transforms *)




(** The sum of the counters of a buffer, and of a result's totals. *)
Definition sum_counters (buffer : list (GroupKey * Z)) : Z :=
  fold_right Z.add 0 (map snd buffer).

Definition sum_totals (out : list Aggregated.row) : Z :=
  fold_right Z.add 0 (map Aggregated.TOTAL_PROJECTS out).

(** What has to hold of the world for a run to go through. *)
Definition run_can_succeed (jdbc_url db_user db_password : string)
           (w : World) : Prop :=
  engine_available w = true /\
  accepts w jdbc_url db_user db_password = true /\
  sink_writable w = true /\
  exists t_users t_projects df_aggregated,
    users (database w) = Some t_users /\
    projects (database w) = Some t_projects /\
    transform (ansi_enabled w)
              (select_users t_users) (select_projects t_projects)
    = Ok df_aggregated.

(** * Properties *)

(** ** Facts about the string built-ins *)

Lemma substring_0_append (p q : string) :
  substring 0 (length p) (p ++ q) = p.
Proof.
  induction p as [|a p IH]; simpl.
  - destruct q; reflexivity.
  - now rewrite IH.
Qed.

Lemma index_first_char (c : ascii) (s : string) :
  index 0 (String c EmptyString) s =
  if occurs c s then Some (length (before_first c s)) else None.
Proof.
  induction s as [|a s IH].
  - reflexivity.
  - cbn [index occurs before_first prefix].
    destruct (ascii_dec c a) as [->|Hne].
    + rewrite Ascii.eqb_refl. cbn. destruct s; reflexivity.
    + assert (Ha : Ascii.eqb a c = false)
        by (apply Ascii.eqb_neq; congruence).
      rewrite Ha, IH. cbn. destruct (occurs c s); reflexivity.
Qed.

Lemma before_first_prefix (c : ascii) (s : string) :
  exists rest, s = before_first c s ++ rest.
Proof.
  induction s as [|a s [rest IH]]; cbn.
  - now exists "".
  - destruct (Ascii.eqb a c).
    + now exists (String a s).
    + exists rest. cbn. now rewrite <- IH.
Qed.

Lemma occurs_length (c : ascii) (s : string) :
  occurs c s = true -> (length (before_first c s) < length s)%nat.
Proof.
  induction s as [|a s IH]; cbn; [discriminate|].
  destruct (Ascii.eqb a c); cbn; [lia|].
  intros H. apply IH in H. lia.
Qed.

(** The masked value of a non-null email, whatever it contains. *)
Lemma mask_expr_some (e : string) :
  mask_expr (Some e) =
  Some ((if occurs at_sign e then local_part e else "") ++ "@***.com").
Proof.
  unfold mask_expr, SparkSQL.CONCAT, SparkSQL.SUBSTRING, SparkSQL.MINUS,
    SparkSQL.INSTR, SparkSQL.lit, SparkSQL.lift2, SparkSQL.lift3.
  f_equal. f_equal.
  unfold SparkSQL.instr.
  change "@" with (String at_sign EmptyString).
  rewrite index_first_char.
  unfold SparkSQL.substringSQL, SparkSQL.substring_range, local_part.
  cbn [Z.ltb Z.compare].
  destruct (occurs at_sign e) eqn:Hocc.
  - pose proof (occurs_length _ _ Hocc) as Hlt.
    destruct (before_first_prefix at_sign e) as [rest Hrest].
    set (k := length (before_first at_sign e)) in *.
    replace (1 - 1 + (Z.of_nat k + 1 - 1)) with (Z.of_nat k) by lia.
    replace (1 - 1) with 0 by lia.
    destruct (Z.leb_spec (Z.of_nat k) 0) as [Hk0|Hk0]; cbn [orb].
    + assert (Hz : k = 0%nat) by lia. subst k.
      destruct (before_first at_sign e); [reflexivity | discriminate].
    + replace (Z.of_nat (length e) <=? 0) with false
        by (symmetry; apply Z.leb_gt; lia).
      rewrite Z.max_l by lia. rewrite Z.min_l by lia.
      rewrite Z.sub_0_r, Nat2Z.id. change (Z.to_nat 0) with 0%nat.
      rewrite Hrest at 1. subst k. apply substring_0_append.
  - replace (1 - 1 + (0 - 1) <=? 1 - 1) with true by reflexivity.
    reflexivity.
Qed.

Lemma occurs_before_first (c : ascii) (s : string) :
  occurs c (before_first c s) = false.
Proof.
  induction s as [|a s IH]; cbn; [reflexivity|].
  destruct (Ascii.eqb a c) eqn:Ha; cbn; [reflexivity|].
  now rewrite Ha, IH.
Qed.

Lemma before_first_append (c : ascii) (p rest : string) :
  occurs c p = false -> before_first c (p ++ String c rest) = p.
Proof.
  induction p as [|a p IH]; cbn.
  - now rewrite Ascii.eqb_refl.
  - destruct (Ascii.eqb a c); cbn; [discriminate|].
    intros H. now rewrite IH.
Qed.

Lemma occurs_append (c : ascii) (p rest : string) :
  occurs c (p ++ String c rest) = true.
Proof.
  induction p as [|a p IH]; cbn.
  - now rewrite Ascii.eqb_refl.
  - rewrite IH. apply orb_true_r.
Qed.

(** An email that contains ['@'] splits at its first ['@']: the local
    part has none, and the rest follows the sign. *)
Lemma local_part_split (e : string) :
  contains_at e ->
  exists rest,
    e = local_part e ++ String at_sign rest /\
    occurs at_sign (local_part e) = false.
Proof.
  unfold contains_at, local_part. induction e as [|a e IH]; cbn; [discriminate|].
  destruct (Ascii.eqb a at_sign) eqn:Ha; cbn.
  - intros _. apply Ascii.eqb_eq in Ha. subst a. now exists e.
  - intros H. destruct (IH H) as [rest [Heq Hno]].
    exists rest. rewrite Ha. split; [now rewrite <- Heq | exact Hno].
Qed.

Lemma mask_expr_null : mask_expr None = None.
Proof. reflexivity. Qed.

Lemma mask_expr_with_at (e : string) :
  contains_at e -> mask_expr (Some e) = Some (local_part e ++ "@***.com").
Proof.
  unfold contains_at. intros H. now rewrite mask_expr_some, H.
Qed.

Lemma mask_expr_without_at (e : string) :
  occurs at_sign e = false -> mask_expr (Some e) = Some "@***.com".
Proof.
  intros H. now rewrite mask_expr_some, H.
Qed.

Lemma mask_expr_masked (p : string) :
  occurs at_sign p = false ->
  mask_expr (Some (p ++ "@***.com")) = Some (p ++ "@***.com").
Proof.
  intros Hp.
  change "@***.com" with (String at_sign "***.com").
  rewrite mask_expr_with_at by (apply occurs_append).
  unfold local_part. now rewrite before_first_append.
Qed.

Lemma mask_expr_idempotent (e : option string) :
  mask_expr (mask_expr e) = mask_expr e.
Proof.
  destruct e as [e|]; [|reflexivity].
  rewrite mask_expr_some.
  apply mask_expr_masked.
  destruct (occurs at_sign e); [apply occurs_before_first | reflexivity].
Qed.

Lemma mask_nth (df_users : list User.row) (n : nat) (r : User.row) :
  nth_error df_users n = Some r ->
  nth_error (apply_expression_mask_data df_users) n =
  Some (Masked.mk (User.id r) (mask_expr (User.email r))).
Proof.
  intros H. unfold apply_expression_mask_data.
  now rewrite nth_error_map, H.
Qed.

(** ** The masking transform *)

(** C2: for every input row whose email contains ['@'], the output row
    at the same position carries the original id as [user_id] and, as
    [MASKED_EMAIL], the characters before the first ['@'] followed by
    ["@***.com"]; the output has as many rows as the input, whatever
    the emails are. *)
Theorem mask_rows_one_to_one (df_users : list User.row) :
  List.length (apply_expression_mask_data df_users) = List.length df_users /\
  forall (n : nat) (r : User.row) (e : string),
    nth_error df_users n = Some r ->
    User.email r = Some e ->
    contains_at e ->
    exists rest,
      e = local_part e ++ String at_sign rest /\
      occurs at_sign (local_part e) = false /\
      nth_error (apply_expression_mask_data df_users) n =
      Some (Masked.mk (User.id r) (Some (local_part e ++ "@***.com"))).
Proof.
  split.
  - unfold apply_expression_mask_data. apply length_map.
  - intros n r e Hn He Hat.
    destruct (local_part_split e Hat) as [rest [Hsplit Hno]].
    exists rest. repeat split; trivial.
    rewrite (mask_nth _ _ _ Hn), He. now rewrite mask_expr_with_at.
Qed.

Lemma mask_rows_one_to_one_witness :
  exists rest,
    "q@@z@w" = local_part "q@@z@w" ++ String at_sign rest /\
    occurs at_sign (local_part "q@@z@w") = false /\
    nth_error
      (apply_expression_mask_data
         [User.mk 1 (Some "a@x.com"); User.mk 5 (Some "q@@z@w")]) 1 =
    Some (Masked.mk 5 (Some (local_part "q@@z@w" ++ "@***.com"))).
Proof.
  apply (proj2 (mask_rows_one_to_one
                  [User.mk 1 (Some "a@x.com"); User.mk 5 (Some "q@@z@w")])
               1%nat (User.mk 5 (Some "q@@z@w")) "q@@z@w");
    reflexivity.
Defined.

(** C9: masking is a function of the email alone; on an email that
    contains ['@'] it is the text before the first ['@'] followed by
    ["@***.com"]; equal inputs give equal outputs; and masking a masked
    value gives it back. *)
Theorem mask_deterministic_idempotent :
  (forall e : string,
      contains_at e ->
      mask_expr (Some e) = Some (local_part e ++ "@***.com")) /\
  (forall e1 e2 : option string, e1 = e2 -> mask_expr e1 = mask_expr e2) /\
  (forall e : option string, mask_expr (mask_expr e) = mask_expr e).
Proof.
  split; [exact mask_expr_with_at|].
  split; [now intros e1 e2 ->|].
  exact mask_expr_idempotent.
Qed.

Lemma mask_deterministic_idempotent_witness :
  mask_expr (Some "b@y.com") = Some (local_part "b@y.com" ++ "@***.com") /\
  mask_expr (Some "b@y.com") = mask_expr (Some "b@y.com") /\
  mask_expr (mask_expr (Some "b@y.com")) = mask_expr (Some "b@y.com").
Proof.
  split; [|split].
  - apply (proj1 mask_deterministic_idempotent "b@y.com"). reflexivity.
  - apply (proj1 (proj2 mask_deterministic_idempotent)). reflexivity.
  - apply (proj2 (proj2 mask_deterministic_idempotent)).
Defined.

(** C10: an input row whose email has no ['@'] is kept and no error is
    raised: [INSTR] gives 0, the substring of length -1 is empty, and
    the row comes out with [MASKED_EMAIL] equal to ["@***.com"]. *)
Theorem mask_without_at_degrades
        (df_users : list User.row) (n : nat) (r : User.row) (e : string)
        (w : World) :
  nth_error df_users n = Some r ->
  User.email r = Some e ->
  occurs at_sign e = false ->
  SparkSQL.INSTR (Some e) (SparkSQL.lit "@") = Some 0 /\
  SparkSQL.SUBSTRING (Some e) (SparkSQL.lit 1) (Some (0 - 1)) = Some "" /\
  mask_stage df_users w = (Ok (apply_expression_mask_data df_users), w) /\
  List.length (apply_expression_mask_data df_users) = List.length df_users /\
  nth_error (apply_expression_mask_data df_users) n =
  Some (Masked.mk (User.id r) (Some "@***.com")).
Proof.
  intros Hn He Hno.
  split; [|split; [|split; [|split]]].
  - cbn. unfold SparkSQL.instr.
    change "@" with (String at_sign EmptyString).
    now rewrite index_first_char, Hno.
  - reflexivity.
  - reflexivity.
  - unfold apply_expression_mask_data. apply length_map.
  - rewrite (mask_nth _ _ _ Hn), He. now rewrite mask_expr_without_at.
Qed.

Lemma mask_without_at_degrades_witness :
  nth_error
    (apply_expression_mask_data
       [User.mk 1 (Some "a@x.com"); User.mk 3 (Some "nope")]) 1 =
  Some (Masked.mk 3 (Some "@***.com")).
Proof.
  apply (mask_without_at_degrades
           [User.mk 1 (Some "a@x.com"); User.mk 3 (Some "nope")]
           1%nat (User.mk 3 (Some "nope")) "nope"
           (mkWorld true false (fun _ _ _ => true) true
                    (mkDatabase None None None) false 0));
    reflexivity.
Defined.

(** ** Facts about the join *)

Lemma filter_map_swap {A B} (f : B -> bool) (g : A -> B) (l : list A) :
  filter f (map g l) = map g (filter (fun x => f (g x)) l).
Proof.
  induction l as [|a l IH]; cbn; [reflexivity|].
  destruct (f (g a)); cbn; now rewrite IH.
Qed.

Lemma join_condition_true (u : Masked.row) (p : Project.row) :
  join_condition u p = true <->
  Project.p_user_id p = Some (Masked.user_id u).
Proof.
  unfold join_condition, SparkSQL.EQ, SparkSQL.lit, SparkSQL.lift2,
    SparkSQL.is_true.
  destruct (Project.p_user_id p) as [o|]; [|split; discriminate].
  destruct (Z.eqb_spec (Masked.user_id u) o) as [->|Hne]; split;
    trivial; try discriminate.
  intros [= Ho]. congruence.
Qed.

Lemma join_app_users (us1 us2 : list Masked.row) (ps : list Project.row) :
  apply_joiner_user_projects (us1 ++ us2) ps =
  (apply_joiner_user_projects us1 ps ++ apply_joiner_user_projects us2 ps)%list.
Proof. unfold apply_joiner_user_projects. apply flat_map_app. Qed.

Lemma join_as_product (us : list Masked.row) (ps : list Project.row) :
  apply_joiner_user_projects us ps =
  map (fun up => joined_row (fst up) (snd up))
      (filter (fun up => join_condition (fst up) (snd up))
              (list_prod us ps)).
Proof.
  unfold apply_joiner_user_projects.
  induction us as [|u us IH]; cbn; [reflexivity|].
  rewrite filter_app, map_app, <- IH. f_equal.
  rewrite filter_map_swap, map_map. reflexivity.
Qed.

Lemma in_join (us : list Masked.row) (ps : list Project.row)
      (j : Joined.row) :
  In j (apply_joiner_user_projects us ps) <->
  exists u p, In u us /\ In p ps /\
              Project.p_user_id p = Some (Masked.user_id u) /\
              j = joined_row u p.
Proof.
  unfold apply_joiner_user_projects. rewrite in_flat_map. split.
  - intros [u [Hu Hj]]. apply in_map_iff in Hj.
    destruct Hj as [p [<- Hp]]. apply filter_In in Hp.
    destruct Hp as [Hp Hc]. exists u, p.
    repeat split; trivial. now apply join_condition_true.
  - intros [u [p [Hu [Hp [Ho ->]]]]]. exists u. split; [exact Hu|].
    apply in_map, filter_In. split; [exact Hp|].
    now apply join_condition_true.
Qed.

Lemma join_drops_unmatched_project
      (us : list Masked.row) (ps1 ps2 : list Project.row) (p : Project.row) :
  (forall u, In u us -> Project.p_user_id p <> Some (Masked.user_id u)) ->
  apply_joiner_user_projects us (ps1 ++ p :: ps2) =
  apply_joiner_user_projects us (ps1 ++ ps2).
Proof.
  unfold apply_joiner_user_projects.
  induction us as [|u us IH]; intros Hno; cbn; [reflexivity|].
  rewrite IH by (intros u' Hu'; apply Hno; now right).
  f_equal. rewrite !filter_app. cbn.
  destruct (join_condition u p) eqn:Hc; [|reflexivity].
  apply join_condition_true in Hc. exfalso.
  apply (Hno u); [now left | exact Hc].
Qed.

(** ** Facts about the aggregation *)

Lemma option_string_eqb_eq (a b : option string) :
  option_string_eqb a b = true <-> a = b.
Proof.
  destruct a as [x|], b as [y|]; cbn; split; try discriminate; trivial.
  - intros H. apply String.eqb_eq in H. now subst.
  - intros [= ->]. apply String.eqb_refl.
Qed.

Lemma group_key_eqb_eq (a b : GroupKey) :
  group_key_eqb a b = true <-> a = b.
Proof.
  destruct a as [ai ae], b as [bi be]. unfold group_key_eqb. cbn.
  rewrite andb_true_iff, Z.eqb_eq, option_string_eqb_eq.
  split; [intros [-> ->]; reflexivity | intros [= -> ->]; now split].
Qed.

Lemma group_key_eqb_refl (k : GroupKey) : group_key_eqb k k = true.
Proof. now apply group_key_eqb_eq. Qed.

Lemma group_key_eqb_neq (a b : GroupKey) :
  group_key_eqb a b = false <-> a <> b.
Proof.
  rewrite <- group_key_eqb_eq. destruct (group_key_eqb a b); split;
    congruence.
Qed.

Lemma counter_update (k k' : GroupKey) (buffer : list (GroupKey * Z)) :
  counter k' (update_buffer k buffer) =
  counter k' buffer + (if group_key_eqb k k' then 1 else 0).
Proof.
  induction buffer as [|[k0 c0] rest IH]; cbn.
  - destruct (group_key_eqb k' k) eqn:E1, (group_key_eqb k k') eqn:E2;
      trivial.
    + apply group_key_eqb_eq in E1. subst.
      now rewrite group_key_eqb_refl in E2.
    + apply group_key_eqb_eq in E2. subst.
      now rewrite group_key_eqb_refl in E1.
  - destruct (group_key_eqb k k0) eqn:E; cbn.
    + apply group_key_eqb_eq in E. subst k0.
      destruct (group_key_eqb k' k) eqn:E1.
      * apply group_key_eqb_eq in E1. subst.
        now rewrite group_key_eqb_refl.
      * replace (group_key_eqb k k') with false; [lia|].
        symmetry. apply group_key_eqb_neq. apply group_key_eqb_neq in E1.
        congruence.
    + destruct (group_key_eqb k' k0) eqn:E1; [|exact IH].
      apply group_key_eqb_eq in E1. subst k0. rewrite E. lia.
Qed.

Lemma keys_update (k : GroupKey) (buffer : list (GroupKey * Z)) :
  map fst (update_buffer k buffer) =
  if existsb (group_key_eqb k) (map fst buffer) then map fst buffer
  else (map fst buffer ++ [k])%list.
Proof.
  induction buffer as [|[k0 c0] rest IH]; cbn; [reflexivity|].
  destruct (group_key_eqb k k0); cbn; [reflexivity|].
  rewrite IH. now destruct (existsb (group_key_eqb k) (map fst rest)).
Qed.

Lemma existsb_key (k : GroupKey) (ks : list GroupKey) :
  existsb (group_key_eqb k) ks = true <-> In k ks.
Proof.
  rewrite existsb_exists. split.
  - intros [x [Hx E]]. apply group_key_eqb_eq in E. now subst.
  - intros H. exists k. split; [exact H | apply group_key_eqb_refl].
Qed.

Lemma keys_update_in (k k' : GroupKey) (buffer : list (GroupKey * Z)) :
  In k' (map fst (update_buffer k buffer)) <->
  k' = k \/ In k' (map fst buffer).
Proof.
  rewrite keys_update.
  destruct (existsb (group_key_eqb k) (map fst buffer)) eqn:E.
  - apply existsb_key in E. split; [now right|].
    intros [->|H]; trivial.
  - rewrite in_app_iff. cbn. intuition.
Qed.

Lemma keys_update_nodup (k : GroupKey) (buffer : list (GroupKey * Z)) :
  NoDup (map fst buffer) -> NoDup (map fst (update_buffer k buffer)).
Proof.
  intros H. rewrite keys_update.
  destruct (existsb (group_key_eqb k) (map fst buffer)) eqn:E; [exact H|].
  assert (Hk : ~ In k (map fst buffer)).
  { intros Hin. apply existsb_key in Hin. congruence. }
  apply NoDup_app; [exact H | repeat constructor; intros [] | ].
  intros x Hx [<-|[]]. contradiction.
Qed.

Lemma in_buffer_counter (k : GroupKey) (c : Z)
      (buffer : list (GroupKey * Z)) :
  NoDup (map fst buffer) ->
  In (k, c) buffer <-> In k (map fst buffer) /\ counter k buffer = c.
Proof.
  induction buffer as [|[k0 c0] rest IH]; cbn; intros Hnd.
  - intuition.
  - inversion Hnd as [|? ? Hnot Hnd']; subst.
    destruct (group_key_eqb k k0) eqn:E.
    + apply group_key_eqb_eq in E. subst k0. split.
      * intros [[= ->]|Hin]; [now split; [left|]|].
        exfalso. apply Hnot. apply in_map_iff. now exists (k, c).
      * intros [_ ->]. now left.
    + apply group_key_eqb_neq in E. rewrite (IH Hnd'). split.
      * intros [[= -> ->]|[Hin Hc]]; [congruence|]. split; [now right|trivial].
      * intros [[->|Hin] Hc]; [congruence|]. right. now split.
Qed.

Lemma group_size_cons (k : GroupKey) (r : Joined.row)
      (rows : list Joined.row) :
  group_size k (r :: rows) =
  (if group_key_eqb (group_key r) k then 1 else 0) + group_size k rows.
Proof.
  unfold group_size. cbn [filter].
  destruct (group_key_eqb (group_key r) k); cbn [List.length]; lia.
Qed.

Lemma group_size_nonneg (k : GroupKey) (rows : list Joined.row) :
  0 <= group_size k rows.
Proof. unfold group_size. lia. Qed.

Lemma group_size_pos (r : Joined.row) (rows : list Joined.row) :
  In r rows -> 0 < group_size (group_key r) rows.
Proof.
  induction rows as [|r0 rows IH]; [intros []|].
  intros Hin. rewrite group_size_cons.
  pose proof (group_size_nonneg (group_key r) rows).
  destruct Hin as [->|Hin].
  - rewrite group_key_eqb_refl. lia.
  - specialize (IH Hin). destruct (group_key_eqb _ _); lia.
Qed.

Lemma aggregate_from_counter (k : GroupKey) (rows : list Joined.row) :
  forall buffer,
    counter k (aggregate_from buffer rows) =
    counter k buffer + group_size k rows.
Proof.
  induction rows as [|r rows IH]; intros buffer; cbn.
  - unfold group_size. cbn. lia.
  - unfold aggregate_from in IH. rewrite IH, counter_update,
      group_size_cons. lia.
Qed.

Lemma aggregate_from_keys (k : GroupKey) (rows : list Joined.row) :
  forall buffer,
    In k (map fst (aggregate_from buffer rows)) <->
    In k (map fst buffer) \/ exists r, In r rows /\ group_key r = k.
Proof.
  induction rows as [|r rows IH]; intros buffer; cbn.
  - split; [now left | intros [H|[r [[] _]]]; exact H].
  - unfold aggregate_from in IH. rewrite IH, keys_update_in. split.
    + intros [[->|H]|[r' [Hr' Hk]]].
      * right. exists r. split; [now left | reflexivity].
      * now left.
      * right. exists r'. split; [now right | exact Hk].
    + intros [H|[r' [[<-|Hr'] Hk]]].
      * left. now right.
      * left. left. now symmetry.
      * right. now exists r'.
Qed.

Lemma aggregate_from_nodup (rows : list Joined.row) :
  forall buffer,
    NoDup (map fst buffer) ->
    NoDup (map fst (aggregate_from buffer rows)).
Proof.
  induction rows as [|r rows IH]; intros buffer H; cbn; [exact H|].
  apply IH. now apply keys_update_nodup.
Qed.

Lemma group_count_nodup (rows : list Joined.row) :
  NoDup (map fst (group_count rows)).
Proof. apply (aggregate_from_nodup rows []). constructor. Qed.

(** The groups are the distinct keys of the rows, each with the number
    of rows that carry it. *)
Lemma in_group_count (rows : list Joined.row) (k : GroupKey) (c : Z) :
  In (k, c) (group_count rows) <->
  (exists r, In r rows /\ group_key r = k) /\ c = group_size k rows.
Proof.
  rewrite (in_buffer_counter k c _ (group_count_nodup rows)).
  change (group_count rows) with (aggregate_from [] rows).
  rewrite aggregate_from_keys, aggregate_from_counter. cbn.
  split.
  - intros [[[]|H] Hc]. split; [exact H | now symmetry].
  - intros [H ->]. split; [now right | reflexivity].
Qed.

Lemma map_result_ok {A B} (f : A -> result B) (g : A -> B) (l : list A) :
  (forall a, In a l -> f a = Ok (g a)) -> map_result f l = Ok (map g l).
Proof.
  induction l as [|a l IH]; intros H; cbn; [reflexivity|].
  rewrite (H a) by now left.
  rewrite IH by (intros a' Ha'; apply H; now right). reflexivity.
Qed.

Lemma map_result_in {A B} (f : A -> result B) (l : list A) :
  forall out b,
    map_result f l = Ok out -> In b out ->
    exists a, In a l /\ f a = Ok b.
Proof.
  induction l as [|a l IH]; cbn; intros out b Hout Hb.
  - injection Hout as <-. destruct Hb.
  - destruct (f a) as [b0|e] eqn:Hfa; [|discriminate].
    destruct (map_result f l) as [bs|e] eqn:Hl; [|discriminate].
    injection Hout as <-. destruct Hb as [<-|Hb].
    + exists a. split; [now left | exact Hfa].
    + destruct (IH bs b eq_refl Hb) as [a' [Ha' Hfa']].
      exists a'. split; [now right | exact Hfa'].
Qed.

Lemma cast_in_range (ansi : bool) (z : Z) :
  SparkSQL.INT_MIN <= z <= SparkSQL.INT_MAX ->
  SparkSQL.cast_long_to_int ansi z = Some z.
Proof.
  intros [Hlo Hhi]. unfold SparkSQL.cast_long_to_int.
  apply Z.leb_le in Hlo, Hhi. now rewrite Hlo, Hhi.
Qed.

Lemma aggregated_row_key (ansi : bool) (g : GroupKey * Z)
      (a : Aggregated.row) :
  aggregated_row ansi g = Ok a -> aggregated_key a = fst g.
Proof.
  unfold aggregated_row.
  destruct (SparkSQL.cast_long_to_int ansi (snd g)); [|discriminate].
  intros [= <-]. now destruct g as [[i e] c].
Qed.

Lemma aggregator_in_range (ansi : bool) (df_joined : list Joined.row) :
  (forall r, In r df_joined ->
             group_size (group_key r) df_joined <= SparkSQL.INT_MAX) ->
  apply_aggregator_project_count ansi df_joined =
  Ok (map counted_row (group_count df_joined)).
Proof.
  intros Hfit. unfold apply_aggregator_project_count.
  apply map_result_ok. intros [k c] Hin.
  apply in_group_count in Hin. destruct Hin as [[r [Hr <-]] ->].
  unfold aggregated_row, counted_row. cbn [fst snd].
  rewrite cast_in_range; [reflexivity|].
  pose proof (group_size_pos r df_joined Hr).
  specialize (Hfit r Hr). unfold SparkSQL.INT_MIN. lia.
Qed.

Lemma aggregator_keys (ansi : bool) (df_joined : list Joined.row)
      (out : list Aggregated.row) (a : Aggregated.row) :
  apply_aggregator_project_count ansi df_joined = Ok out ->
  In a out ->
  exists r, In r df_joined /\ group_key r = aggregated_key a.
Proof.
  intros Hout Ha.
  destruct (map_result_in _ _ _ _ Hout Ha) as [[k c] [Hg Hrow]].
  apply aggregated_row_key in Hrow. cbn in Hrow.
  apply in_group_count in Hg. destruct Hg as [[r [Hr Hk]] _].
  exists r. split; [exact Hr | congruence].
Qed.

(** ** The join transform *)

(** C3: the join is the inner equijoin on [user_id = p_user_id]: its
    rows are, for the matching (user, project) pairs and one per pair,
    the user's [user_id] and [MASKED_EMAIL] with the project's
    [project_id]; a user no project points to
    has no row in the joined output and none, not even a zero count, in
    the aggregated output; a project whose owner is no user leaves the
    output as it would be without that project. *)
Theorem join_inner_equijoin
        (df_users_masked : list Masked.row)
        (df_projects : list Project.row) :
  let df_joined := apply_joiner_user_projects df_users_masked df_projects in
  df_joined =
    map (fun up => Joined.mk (Masked.user_id (fst up))
                             (Masked.MASKED_EMAIL (fst up))
                             (Project.project_id (snd up)))
        (filter (fun up => match Project.p_user_id (snd up) with
                           | Some owner => Masked.user_id (fst up) =? owner
                           | None => false
                           end)
                (list_prod df_users_masked df_projects)) /\
  (forall u : Masked.row,
      In u df_users_masked ->
      (forall p, In p df_projects ->
                 Project.p_user_id p <> Some (Masked.user_id u)) ->
      (forall j, In j df_joined -> Joined.user_id j <> Masked.user_id u) /\
      (forall g, In g (group_count df_joined) ->
                 fst (fst g) <> Masked.user_id u) /\
      (forall ansi out a,
          apply_aggregator_project_count ansi df_joined = Ok out ->
          In a out -> Aggregated.USER_ID a <> Masked.user_id u)) /\
  (forall ps1 p ps2,
      df_projects = (ps1 ++ p :: ps2)%list ->
      (forall u, In u df_users_masked ->
                 Project.p_user_id p <> Some (Masked.user_id u)) ->
      df_joined = apply_joiner_user_projects df_users_masked (ps1 ++ ps2)).
Proof.
  cbv zeta. split; [|split].
  - rewrite join_as_product. unfold joined_row. f_equal. apply filter_ext.
    intros [u p]. unfold join_condition, SparkSQL.EQ, SparkSQL.lit,
      SparkSQL.lift2, SparkSQL.is_true. cbn.
    destruct (Project.p_user_id p) as [o|]; [|reflexivity].
    now destruct (Masked.user_id u =? o).
  - intros u Hu Hnone.
    assert (Hj : forall j,
               In j (apply_joiner_user_projects df_users_masked df_projects) ->
               Joined.user_id j <> Masked.user_id u).
    { intros j Hin Heq. apply in_join in Hin.
      destruct Hin as [u' [p [_ [Hp [Ho ->]]]]]. cbn in Heq.
      apply (Hnone p Hp). congruence. }
    split; [exact Hj|]. split.
    + intros [[i e] c] Hg Heq. apply in_group_count in Hg.
      destruct Hg as [[r [Hr Hk]] _]. apply (Hj r Hr).
      unfold group_key in Hk. cbn in Heq. congruence.
    + intros ansi out a Hout Ha Heq.
      destruct (aggregator_keys _ _ _ _ Hout Ha) as [r [Hr Hk]].
      apply (Hj r Hr). unfold group_key, aggregated_key in Hk. congruence.
  - intros ps1 p ps2 -> Hno. now apply join_drops_unmatched_project.
Qed.

Lemma join_inner_equijoin_witness :
  apply_joiner_user_projects
    [Masked.mk 1 (Some "a@***.com"); Masked.mk 3 (Some "c@***.com")]
    [Project.mk 10 (Some 1); Project.mk 14 (Some 9); Project.mk 11 (Some 1)]
  = [Joined.mk 1 (Some "a@***.com") 10; Joined.mk 1 (Some "a@***.com") 11] /\
  (forall j,
      In j (apply_joiner_user_projects
              [Masked.mk 1 (Some "a@***.com"); Masked.mk 3 (Some "c@***.com")]
              [Project.mk 10 (Some 1); Project.mk 14 (Some 9);
               Project.mk 11 (Some 1)]) ->
      Joined.user_id j <> 3) /\
  apply_joiner_user_projects
    [Masked.mk 1 (Some "a@***.com"); Masked.mk 3 (Some "c@***.com")]
    [Project.mk 10 (Some 1); Project.mk 14 (Some 9); Project.mk 11 (Some 1)] =
  apply_joiner_user_projects
    [Masked.mk 1 (Some "a@***.com"); Masked.mk 3 (Some "c@***.com")]
    [Project.mk 10 (Some 1); Project.mk 11 (Some 1)].
Proof.
  pose proof (join_inner_equijoin
                [Masked.mk 1 (Some "a@***.com");
                 Masked.mk 3 (Some "c@***.com")]
                [Project.mk 10 (Some 1); Project.mk 14 (Some 9);
                 Project.mk 11 (Some 1)])
    as [Hrows [Huser Hproject]].
  split; [|split].
  - exact Hrows.
  - apply (Huser (Masked.mk 3 (Some "c@***.com"))).
    + right. left. reflexivity.
    + intros p [<-|[<-|[<-|[]]]]; discriminate.
  - apply (Hproject [Project.mk 10 (Some 1)] (Project.mk 14 (Some 9))
                    [Project.mk 11 (Some 1)]).
    + reflexivity.
    + intros u [<-|[<-|[]]]; discriminate.
Defined.

(** ** The aggregation transform *)

Lemma aggregate_from_repeat (r : Joined.row) (n : nat) :
  forall c,
    aggregate_from [(group_key r, c)] (repeat r n) =
    [(group_key r, c + Z.of_nat n)].
Proof.
  induction n as [|n IH]; intros c.
  - cbn. now rewrite Z.add_0_r.
  - cbn [repeat aggregate_from fold_left update_buffer].
    rewrite group_key_eqb_refl.
    change (fold_left _ (repeat r n) ?b) with (aggregate_from b (repeat r n)).
    rewrite IH. f_equal. f_equal. lia.
Qed.

Lemma group_count_repeat (r : Joined.row) (n : nat) :
  (0 < n)%nat ->
  group_count (repeat r n) = [(group_key r, Z.of_nat n)].
Proof.
  destruct n as [|n]; [lia|]. intros _.
  unfold group_count. cbn [repeat fold_left update_buffer].
  change (fold_left _ (repeat r n) ?b) with (aggregate_from b (repeat r n)).
  rewrite aggregate_from_repeat. f_equal. f_equal. lia.
Qed.

Lemma group_size_repeat (r : Joined.row) (n : nat) :
  group_size (group_key r) (repeat r n) = Z.of_nat n.
Proof.
  induction n as [|n IH]; [reflexivity|].
  cbn [repeat]. rewrite group_size_cons, group_key_eqb_refl, IH. lia.
Qed.

Lemma int_wrap_range (z : Z) :
  SparkSQL.INT_MIN <= SparkSQL.int_wrap z <= SparkSQL.INT_MAX.
Proof.
  unfold SparkSQL.int_wrap, SparkSQL.INT_MIN, SparkSQL.INT_MAX.
  pose proof (Z.mod_pos_bound (z - -2147483648) 4294967296 eq_refl). lia.
Qed.

(** A group too large for an [int] is never reported with its size:
    the cast raises or wraps. *)
Lemma oversized_group_miscounted (ansi : bool) (r : Joined.row) (n : nat) :
  SparkSQL.INT_MAX < Z.of_nat n ->
  ~ aggregation_contract ansi (repeat r n).
Proof.
  intros Hbig [out [Hout [_ Hrows]]].
  assert (Hn : (0 < n)%nat) by (unfold SparkSQL.INT_MAX in Hbig; lia).
  unfold apply_aggregator_project_count in Hout.
  rewrite (group_count_repeat r n Hn) in Hout.
  cbn [map_result] in Hout. unfold aggregated_row in Hout.
  cbn [fst snd] in Hout. unfold SparkSQL.cast_long_to_int in Hout.
  replace (Z.of_nat n <=? SparkSQL.INT_MAX) with false in Hout
    by (symmetry; apply Z.leb_gt; exact Hbig).
  rewrite andb_false_r in Hout.
  destruct ansi; [discriminate|].
  injection Hout as <-.
  assert (Hin : In r (repeat r n)).
  { destruct n; [lia|]. now left. }
  assert (Hrow : In (Aggregated.mk (Joined.user_id r) (Joined.MASKED_EMAIL r)
                       (group_size (group_key r) (repeat r n)))
                    [Aggregated.mk (fst (group_key r)) (snd (group_key r))
                       (SparkSQL.int_wrap (Z.of_nat n))]).
  { apply Hrows. now exists r. }
  destruct Hrow as [Heq|[]].
  apply (f_equal Aggregated.TOTAL_PROJECTS) in Heq. cbn in Heq.
  rewrite group_size_repeat in Heq.
  pose proof (int_wrap_range (Z.of_nat n)). lia.
Qed.

(** C4, as stated, fails on a group of 2^31 rows: without ANSI mode the
    cast to [IntegerType] reports -2^31, with it the cast raises. *)
Lemma aggregation_contract_fails_on_oversized_group :
  ~ aggregation_contract false oversized_group /\
  ~ aggregation_contract true oversized_group.
Proof.
  assert (H : SparkSQL.INT_MAX < Z.of_nat (Z.to_nat 2147483648)).
  { rewrite Z2Nat.id by discriminate. reflexivity. }
  split; apply oversized_group_miscounted; exact H.
Qed.

(** C4 (amended): when no group has more than 2^31 - 1 rows, the
    aggregation returns exactly one row per distinct
    [(user_id, MASKED_EMAIL)] of the joined rows, and that row's
    [TOTAL_PROJECTS] is the number of joined rows of the group,
    duplicates of [project_id] included. *)
Theorem aggregation_counts_rows_per_group
        (ansi : bool) (df_joined : list Joined.row) :
  (forall r, In r df_joined ->
             group_size (group_key r) df_joined <= SparkSQL.INT_MAX) ->
  aggregation_contract ansi df_joined.
Proof.
  intros Hfit. exists (map counted_row (group_count df_joined)).
  split; [now apply aggregator_in_range|]. split.
  - rewrite map_map.
    rewrite (map_ext _ fst) by (now intros [[i e] c]).
    apply group_count_nodup.
  - intros a. rewrite in_map_iff. split.
    + intros [[k c] [<- Hg]]. apply in_group_count in Hg.
      destruct Hg as [[r [Hr <-]] ->]. now exists r.
    + intros [r [Hr ->]]. exists (group_key r, group_size (group_key r) df_joined).
      split; [reflexivity|]. apply in_group_count. split; [|reflexivity].
      now exists r.
Qed.

Lemma aggregation_counts_rows_per_group_witness :
  aggregation_contract true
    [Joined.mk 1 (Some "a@***.com") 10; Joined.mk 2 (Some "b@***.com") 12;
     Joined.mk 1 (Some "a@***.com") 10].
Proof.
  apply aggregation_counts_rows_per_group.
  intros r [<-|[<-|[<-|[]]]]; vm_compute; discriminate.
Defined.

(** ** The orchestrator *)

Section OrchestratorFacts.

Context {W Session UsersDF ProjectsDF MaskedDF JoinedDF AggregatedDF : Type}.
Variable init : string -> Stage W Session.
Variable read_users :
  Session -> string -> ConnectionProperties -> Stage W UsersDF.
Variable read_projects :
  Session -> string -> ConnectionProperties -> Stage W ProjectsDF.
Variable mask : UsersDF -> Stage W MaskedDF.
Variable join : MaskedDF -> ProjectsDF -> Stage W JoinedDF.
Variable aggregate : JoinedDF -> Stage W AggregatedDF.
Variable write :
  AggregatedDF -> string -> ConnectionProperties -> Stage W unit.
Variable stop : Session -> W -> W.

Local Notation "'run'" :=
  (run_pipeline init read_users read_projects mask join aggregate write
                stop).
Local Notation "'path'" :=
  (run_path init read_users read_projects mask join aggregate write stop).

(** Every run takes one of the eight paths. *)
Lemma run_pipeline_path (jdbc_url db_user db_password : string) (w0 : W) :
  path jdbc_url db_user db_password w0
       (fst (run jdbc_url db_user db_password (w0, [])))
       (fst (snd (run jdbc_url db_user db_password (w0, []))))
       (snd (snd (run jdbc_url db_user db_password (w0, [])))).
Proof.
  unfold run_pipeline, pipeline_body, bind, invoke, teardown.
  cbn [fst snd app].
  destruct (init _ w0) as [[spark|e] w1] eqn:Hinit; cbn;
    [|now apply engine_fails].
  destruct (read_users spark _ _ w1) as [[df_users|e] w2] eqn:Husers; cbn;
    [|eapply users_read_fails; eassumption].
  destruct (read_projects spark _ _ w2) as [[df_projects|e] w3]
    eqn:Hprojects; cbn;
    [|eapply projects_read_fails; eassumption].
  destruct (mask df_users w3) as [[df_masked|e] w4] eqn:Hmask; cbn;
    [|eapply mask_fails; eassumption].
  destruct (join df_masked df_projects w4) as [[df_joined|e] w5]
    eqn:Hjoin; cbn;
    [|eapply join_fails; eassumption].
  destruct (aggregate df_joined w5) as [[df_aggregated|e] w6]
    eqn:Hagg; cbn;
    [|eapply aggregate_fails; eassumption].
  destruct (write df_aggregated _ _ w6) as [[[]|e] w7] eqn:Hwrite; cbn;
    [eapply completes; eassumption | eapply write_fails; eassumption].
Qed.


End OrchestratorFacts.


(** ** The stages on the concrete world *)

Lemma initialize_spark_ok (name : string) (w w1 : World)
      (spark : SparkSession) :
  initialize_spark name w = (Ok spark, w1) ->
  engine_available w = true /\ w1 = set_session true w.
Proof.
  unfold initialize_spark. destruct (engine_available w); [|discriminate].
  intros [= _ <-]. now split.
Qed.

Lemma read_source_users_ok (spark : SparkSession) (url : string)
      (props : ConnectionProperties) (w w' : World) (df : list User.row) :
  read_source_users spark url props w = (Ok df, w') ->
  authorized w url props = true /\
  (exists t, users (database w) = Some t /\ df = select_users t) /\
  w' = connect w.
Proof.
  unfold read_source_users.
  destruct (authorized w url props); [|discriminate].
  destruct (users (database w)) as [t|]; [|discriminate].
  intros [= <- <-]. repeat split. now exists t.
Qed.

Lemma read_source_projects_ok (spark : SparkSession) (url : string)
      (props : ConnectionProperties) (w w' : World) (df : list Project.row) :
  read_source_projects spark url props w = (Ok df, w') ->
  authorized w url props = true /\
  (exists t, projects (database w) = Some t /\ df = select_projects t) /\
  w' = connect w.
Proof.
  unfold read_source_projects.
  destruct (authorized w url props); [|discriminate].
  destruct (projects (database w)) as [t|]; [|discriminate].
  intros [= <- <-]. repeat split. now exists t.
Qed.

Lemma write_target_ok (df : list Aggregated.row) (url : string)
      (props : ConnectionProperties) (w w' : World) :
  write_target_user_project_analytics df url props w = (Ok tt, w') ->
  authorized w url props = true /\ sink_writable w = true /\
  w' = set_database
         (mkDatabase (users (database w)) (projects (database w)) (Some df))
         (connect w).
Proof.
  unfold write_target_user_project_analytics.
  destruct (authorized w url props); [|discriminate].
  destruct (sink_writable w); [|discriminate].
  intros [= <-]. now repeat split.
Qed.

Lemma aggregate_stage_ok (df : list Joined.row) (w w' : World)
      (out : list Aggregated.row) :
  aggregate_stage df w = (Ok out, w') ->
  apply_aggregator_project_count (ansi_enabled w) df = Ok out /\ w' = w.
Proof. unfold aggregate_stage. intros [= -> <-]. now split. Qed.

(** What a run that succeeds has done. *)
Lemma etl_success_inv (url u p : string) (w w' : World) (tr : list Event) :
  run_specforge_analytics_etl url u p (w, []) = (Ok tt, (w', tr)) ->
  exists t_users t_projects df_aggregated,
    users (database w) = Some t_users /\
    projects (database w) = Some t_projects /\
    transform (ansi_enabled w)
              (select_users t_users) (select_projects t_projects)
    = Ok df_aggregated /\
    database w' = mkDatabase (Some t_users) (Some t_projects)
                             (Some df_aggregated) /\
    session_running w' = false /\
    tr = (pipeline_order ++ [Stopped])%list.
Proof.
  intros Hrun.
  pose proof (run_pipeline_path
                initialize_spark read_source_users read_source_projects
                mask_stage join_stage aggregate_stage
                write_target_user_project_analytics spark_stop
                url u p w) as Hpath.
  fold (run_specforge_analytics_etl url u p) in Hpath.
  rewrite Hrun in Hpath. cbn [fst snd] in Hpath.
  inversion Hpath as
    [ | | | | | |
    | spark w1 df_users w2 df_projects w3 df_masked w4 df_joined w5
            df_aggregated w6 w7 Hinit Husers Hprojects Hmask Hjoin Hagg
            Hwrite Hw Htr ].
  apply initialize_spark_ok in Hinit. destruct Hinit as [_ ->].
  apply read_source_users_ok in Husers.
  destruct Husers as [_ [[tu [Htu ->]] ->]].
  apply read_source_projects_ok in Hprojects.
  destruct Hprojects as [_ [[tp [Htp ->]] ->]].
  injection Hmask as <- <-. injection Hjoin as <- <-.
  apply aggregate_stage_ok in Hagg. destruct Hagg as [Hagg ->].
  apply write_target_ok in Hwrite. destruct Hwrite as [_ [_ ->]].
  cbn in Htu, Htp, Hagg.
  exists tu, tp, df_aggregated. cbn.
  rewrite Htu, Htp. repeat split; trivial.
Qed.

(** When the engine starts, the server lets the credentials in, both
    source tables exist, the counts fit and the destination can be
    replaced, the run succeeds. *)
Lemma etl_success (url u p : string) (w : World)
      (t_users : list UsersTable.row) (t_projects : list ProjectsTable.row)
      (df_aggregated : list Aggregated.row) :
  engine_available w = true ->
  accepts w url u p = true ->
  sink_writable w = true ->
  users (database w) = Some t_users ->
  projects (database w) = Some t_projects ->
  transform (ansi_enabled w)
            (select_users t_users) (select_projects t_projects)
  = Ok df_aggregated ->
  exists w',
    run_specforge_analytics_etl url u p (w, []) =
    (Ok tt, (w', (pipeline_order ++ [Stopped])%list)) /\
    database w' = mkDatabase (Some t_users) (Some t_projects)
                             (Some df_aggregated).
Proof.
  intros Hengine Haccepts Hsink Husers Hprojects Htransform.
  unfold run_specforge_analytics_etl, run_pipeline, pipeline_body, bind,
    invoke, teardown, initialize_spark, read_source_users,
    read_source_projects, write_target_user_project_analytics, mask_stage,
    join_stage, aggregate_stage, pure_stage, authorized.
  unfold transform in Htransform.
  cbn. rewrite Hengine. cbn. rewrite Haccepts, Husers. cbn.
  rewrite Haccepts, Hprojects. cbn. rewrite Htransform. cbn.
  rewrite Haccepts, Hsink. cbn. rewrite Husers, Hprojects.
  eexists. split; reflexivity.
Qed.

(** ** The projects reader *)

(** C5: when the connection is let in and [public.projects] exists,
    the projects reader returns one row per table row, in the same
    positions and with none left out, made of exactly two columns: the
    table's [id] under the name [project_id] and the table's owner
    column ([user_id] in the table) under the name [p_user_id], a name
    that differs from the users' [id] and [user_id]. *)
Theorem projects_reader_projects_all_rows
        (spark : SparkSession) (jdbc_url : string)
        (connection_properties : ConnectionProperties) (w : World)
        (t : list ProjectsTable.row) :
  authorized w jdbc_url connection_properties = true ->
  projects (database w) = Some t ->
  exists df_projects,
    fst (read_source_projects spark jdbc_url connection_properties w)
    = Ok df_projects /\
    List.length df_projects = List.length t /\
    (forall n,
        nth_error df_projects n =
        option_map (fun r => Project.mk (ProjectsTable.id r)
                                        (ProjectsTable.user_id r))
                   (nth_error t n)) /\
    Project.columns = ["project_id"; "p_user_id"] /\
    ~ In "p_user_id" User.columns /\
    ~ In "p_user_id" Masked.columns /\
    NoDup (Masked.columns ++ Project.columns).
Proof.
  intros Hauth Ht. exists (select_projects t).
  split; [|split; [|split; [|split; [|split; [|split]]]]].
  - unfold read_source_projects. now rewrite Hauth, Ht.
  - unfold select_projects. apply length_map.
  - intros n. unfold select_projects. apply nth_error_map.
  - reflexivity.
  - cbn. intros [H|[H|[]]]; discriminate.
  - cbn. intros [H|[H|[]]]; discriminate.
  - cbn. repeat constructor; cbn; intuition discriminate.
Qed.

Lemma projects_reader_projects_all_rows_witness :
  exists df_projects,
    fst (read_source_projects
           (mkSession "wkf_SpecForge_Analytics")
           "jdbc:postgresql://localhost:5432/SpecForge_DB"
           (mkProperties "admin" "password123" "org.postgresql.Driver")
           scenario_world)
    = Ok df_projects /\
    List.length df_projects = 3%nat.
Proof.
  destruct (projects_reader_projects_all_rows
              (mkSession "wkf_SpecForge_Analytics")
              "jdbc:postgresql://localhost:5432/SpecForge_DB"
              (mkProperties "admin" "password123" "org.postgresql.Driver")
              scenario_world
              [ProjectsTable.mk 10 (Some 1) [("title", "p10")];
               ProjectsTable.mk 11 (Some 1) [];
               ProjectsTable.mk 12 (Some 2) []]
              eq_refl eq_refl) as [df [Hread [Hlen _]]].
  exists df. split; [exact Hread | exact Hlen].
Defined.

(** ** The sink writer *)

(** C6: after a run that succeeds, the destination table holds exactly
    the aggregated rows computed from the source tables as they were
    when the run started; a row that was in the destination before and
    is not among the new rows is not there afterwards; the sink was
    written once, as the run's last step before the session stops; and
    the source tables are as they were. *)
Theorem sink_overwrites_destination
        (jdbc_url db_user db_password : string) (w w' : World)
        (tr : list Event) :
  run_specforge_analytics_etl jdbc_url db_user db_password (w, [])
  = (Ok tt, (w', tr)) ->
  exists t_users t_projects df_aggregated,
    users (database w) = Some t_users /\
    projects (database w) = Some t_projects /\
    transform (ansi_enabled w)
              (select_users t_users) (select_projects t_projects)
    = Ok df_aggregated /\
    USER_PROJECT_ANALYTICS (database w') = Some df_aggregated /\
    (forall old r,
        USER_PROJECT_ANALYTICS (database w) = Some old ->
        In r old -> ~ In r df_aggregated ->
        forall now, USER_PROJECT_ANALYTICS (database w') = Some now ->
                    ~ In r now) /\
    tr = (pipeline_order ++ [Stopped])%list /\
    users (database w') = users (database w) /\
    projects (database w') = projects (database w).
Proof.
  intros Hrun.
  destruct (etl_success_inv _ _ _ _ _ _ Hrun)
    as [tu [tp [out [Hu [Hp [Ht [Hdb [_ Htr]]]]]]]].
  exists tu, tp, out. rewrite Hdb. cbn.
  split; [exact Hu|]. split; [exact Hp|]. split; [exact Ht|].
  split; [reflexivity|]. split.
  - intros old r _ _ Hnot now [= <-]. exact Hnot.
  - split; [exact Htr|]. now rewrite Hu, Hp.
Qed.

Lemma sink_overwrites_destination_witness :
  exists w' tr df_aggregated,
    run_specforge_analytics_etl
      "jdbc:postgresql://localhost:5432/SpecForge_DB" "admin" "password123"
      (scenario_world, []) = (Ok tt, (w', tr)) /\
    USER_PROJECT_ANALYTICS (database w') = Some df_aggregated /\
    ~ In (Aggregated.mk 7 (Some "old@***.com") 3) df_aggregated.
Proof.
  destruct (etl_success
              "jdbc:postgresql://localhost:5432/SpecForge_DB"
              "admin" "password123" scenario_world
              [UsersTable.mk 1 (Some "a@x.com") [("name", "Ann")];
               UsersTable.mk 2 (Some "b@y.com") [("name", "Bob")]]
              [ProjectsTable.mk 10 (Some 1) [("title", "p10")];
               ProjectsTable.mk 11 (Some 1) [];
               ProjectsTable.mk 12 (Some 2) []]
              scenario_expected
              eq_refl eq_refl eq_refl eq_refl eq_refl eq_refl)
    as [w' [Hrun Hdb]].
  destruct (sink_overwrites_destination _ _ _ _ _ _ Hrun)
    as [tu [tp [out [_ [_ [_ [Hdest [Hgone _]]]]]]]].
  exists w', (pipeline_order ++ [Stopped])%list, out.
  split; [exact Hrun|]. split; [exact Hdest|].
  apply (Hgone [Aggregated.mk 7 (Some "old@***.com") 3]
               (Aggregated.mk 7 (Some "old@***.com") 3)
               eq_refl (or_introl eq_refl)); [|exact Hdest].
  rewrite Hdb in Hdest. injection Hdest as <-.
  intros [H|[H|[]]]; discriminate.
Defined.

(** ** The entry point *)

(** C7: started with fewer than three parameters after the script name,
    the program prints the usage line and the example line and exits
    with status 1; no component is entered, no connection is attempted
    and the world is as it was. *)
Theorem main_fails_fast_without_arguments
        (script : string) (parameters : list string) (w : World) :
  (List.length parameters < 3)%nat ->
  exit_status (main (script :: parameters) w) = 1 /\
  exit_status (main (script :: parameters) w) <> 0 /\
  stdout (main (script :: parameters) w) =
    ["Usage: python specforge_analytics_etl.py <jdbc_url> <db_user> <db_password>";
     "Example: python specforge_analytics_etl.py jdbc:postgresql://localhost:5432/SpecForge_DB admin password123"] /\
  events (main (script :: parameters) w) = [] /\
  final_world (main (script :: parameters) w) = w /\
  jdbc_connections (final_world (main (script :: parameters) w))
  = jdbc_connections w.
Proof.
  intros Hlen. unfold main.
  replace (List.length (script :: parameters) <? 4)%nat with true
    by (symmetry; apply Nat.ltb_lt; cbn; lia).
  cbn. repeat split; trivial. discriminate.
Qed.

Lemma main_fails_fast_without_arguments_witness :
  exit_status
    (main ["specforge_analytics_etl.py";
           "jdbc:postgresql://localhost:5432/SpecForge_DB"; "admin"]
          scenario_world) = 1 /\
  stdout
    (main ["specforge_analytics_etl.py";
           "jdbc:postgresql://localhost:5432/SpecForge_DB"; "admin"]
          scenario_world) =
    ["Usage: python specforge_analytics_etl.py <jdbc_url> <db_user> <db_password>";
     "Example: python specforge_analytics_etl.py jdbc:postgresql://localhost:5432/SpecForge_DB admin password123"] /\
  events
    (main ["specforge_analytics_etl.py";
           "jdbc:postgresql://localhost:5432/SpecForge_DB"; "admin"]
          scenario_world) = [] /\
  final_world
    (main ["specforge_analytics_etl.py";
           "jdbc:postgresql://localhost:5432/SpecForge_DB"; "admin"]
          scenario_world) = scenario_world.
Proof.
  destruct (main_fails_fast_without_arguments
              "specforge_analytics_etl.py"
              ["jdbc:postgresql://localhost:5432/SpecForge_DB"; "admin"]
              scenario_world) as [Hstatus [_ [Hout [Hevents [Hworld _]]]]].
  - cbn. lia.
  - repeat split; assumption.
Defined.

(** ** The scenario, end to end *)

(** C1: on users [(1, "a@x.com"), (2, "b@y.com")] and projects
    [(10, owner 1), (11, owner 1), (12, owner 2)], masking, join and
    aggregation composed give, as a set of rows, exactly
    [(1, "a@***.com", 2)] and [(2, "b@***.com", 1)]; and a run on a
    database holding these rows leaves exactly them in the destination. *)
Theorem end_to_end_scenario :
  (forall ansi : bool,
      exists out,
        transform ansi scenario_users scenario_projects = Ok out /\
        Permutation out scenario_expected /\
        NoDup out /\
        forall r, In r out <-> In r scenario_expected) /\
  exists w' tr out,
    run_specforge_analytics_etl
      "jdbc:postgresql://localhost:5432/SpecForge_DB" "admin" "password123"
      (scenario_world, []) = (Ok tt, (w', tr)) /\
    USER_PROJECT_ANALYTICS (database w') = Some out /\
    Permutation out scenario_expected.
Proof.
  split.
  - intros ansi. exists scenario_expected.
    split; [now destruct ansi|]. split; [apply Permutation_refl|].
    split; [|tauto].
    repeat constructor; cbn; intuition discriminate.
  - destruct (etl_success
                "jdbc:postgresql://localhost:5432/SpecForge_DB"
                "admin" "password123" scenario_world
                [UsersTable.mk 1 (Some "a@x.com") [("name", "Ann")];
                 UsersTable.mk 2 (Some "b@y.com") [("name", "Bob")]]
                [ProjectsTable.mk 10 (Some 1) [("title", "p10")];
                 ProjectsTable.mk 11 (Some 1) [];
                 ProjectsTable.mk 12 (Some 2) []]
                scenario_expected
                eq_refl eq_refl eq_refl eq_refl eq_refl eq_refl)
      as [w' [Hrun Hdb]].
    exists w', (pipeline_order ++ [Stopped])%list, scenario_expected.
    split; [exact Hrun|]. rewrite Hdb.
    split; [reflexivity | apply Permutation_refl].
Qed.

(** * Further properties of the pipeline *)

(** ** Masking *)

(** X1: the masked value depends on the local part alone: two emails
    with the same text before their first ['@'] are masked to the same
    value, whatever follows the sign. *)
Theorem mask_discards_domain (p d1 d2 : string) :
  occurs at_sign p = false ->
  mask_expr (Some (p ++ String at_sign d1)) = Some (p ++ "@***.com") /\
  mask_expr (Some (p ++ String at_sign d1)) =
  mask_expr (Some (p ++ String at_sign d2)).
Proof.
  intros Hp.
  assert (H : forall d, mask_expr (Some (p ++ String at_sign d))
                        = Some (p ++ "@***.com")).
  { intros d. rewrite mask_expr_with_at by apply occurs_append.
    unfold local_part. now rewrite before_first_append. }
  split; [apply H | now rewrite !H].
Qed.

Lemma mask_discards_domain_witness :
  mask_expr (Some ("ann" ++ String at_sign "x.com")) =
  mask_expr (Some ("ann" ++ String at_sign "corp.example@y")).
Proof.
  apply (mask_discards_domain "ann" "x.com" "corp.example@y").
  reflexivity.
Defined.

(** ** The users reader *)

(** X2: the users reader returns rows exactly when the connection is
    let in and [public.users] exists; it then returns one row per
    table row, at the same position, holding the row's [id] and
    [email] and nothing else.  Otherwise it raises
    [SourceUnavailable] for [public.users]. *)
Theorem users_reader_projects_or_raises
        (spark : SparkSession) (jdbc_url : string)
        (connection_properties : ConnectionProperties) (w : World) :
  match fst (read_source_users spark jdbc_url connection_properties w) with
  | Ok df_users =>
      authorized w jdbc_url connection_properties = true /\
      exists t,
        users (database w) = Some t /\
        List.length df_users = List.length t /\
        forall n,
          nth_error df_users n =
          option_map (fun r => User.mk (UsersTable.id r) (UsersTable.email r))
                     (nth_error t n)
  | Raise e =>
      e = SourceUnavailable "public.users" /\
      (authorized w jdbc_url connection_properties = false \/
       users (database w) = None)
  end.
Proof.
  unfold read_source_users.
  destruct (authorized w jdbc_url connection_properties);
    [|cbn; split; [reflexivity | now left]].
  destruct (users (database w)) as [t|]; cbn.
  - split; [reflexivity|]. exists t. split; [reflexivity|].
    unfold select_users. split; [apply length_map|].
    intros n. apply nth_error_map.
  - split; [reflexivity | now right].
Qed.

(** ** The join *)








(** ** The aggregation *)

Lemma sum_counters_update (k : GroupKey) (buffer : list (GroupKey * Z)) :
  sum_counters (update_buffer k buffer) = sum_counters buffer + 1.
Proof.
  unfold sum_counters.
  induction buffer as [|[k0 c0] rest IH]; cbn; [reflexivity|].
  destruct (group_key_eqb k k0); cbn; lia.
Qed.

Lemma sum_counters_aggregate_from (rows : list Joined.row) :
  forall buffer,
    sum_counters (aggregate_from buffer rows) =
    sum_counters buffer + Z.of_nat (List.length rows).
Proof.
  induction rows as [|r rows IH]; intros buffer; cbn [aggregate_from fold_left].
  - cbn. lia.
  - unfold aggregate_from in IH. rewrite IH, sum_counters_update.
    cbn [List.length]. lia.
Qed.

Lemma sum_totals_counted (groups : list (GroupKey * Z)) :
  sum_totals (map counted_row groups) = sum_counters groups.
Proof.
  unfold sum_totals, sum_counters. rewrite map_map. reflexivity.
Qed.

Lemma group_size_le_length (k : GroupKey) (rows : list Joined.row) :
  group_size k rows <= Z.of_nat (List.length rows).
Proof.
  unfold group_size. apply inj_le. apply filter_length_le.
Qed.

Lemma in_counted_rows (df_joined : list Joined.row) (a : Aggregated.row) :
  In a (map counted_row (group_count df_joined)) <->
  exists r, In r df_joined /\
            a = Aggregated.mk (Joined.user_id r) (Joined.MASKED_EMAIL r)
                              (group_size (group_key r) df_joined).
Proof.
  rewrite in_map_iff. split.
  - intros [[k c] [<- Hg]]. apply in_group_count in Hg.
    destruct Hg as [[r [Hr <-]] ->]. now exists r.
  - intros [r [Hr ->]].
    exists (group_key r, group_size (group_key r) df_joined).
    split; [reflexivity|]. apply in_group_count.
    split; [now exists r | reflexivity].
Qed.

(** X4: when the joined rows number at most 2^31 - 1, the aggregation
    returns, every total is at least 1, and the totals add up to the
    number of joined rows: no joined row is lost or counted twice. *)
Theorem aggregation_totals_add_up
        (ansi : bool) (df_joined : list Joined.row) :
  Z.of_nat (List.length df_joined) <= SparkSQL.INT_MAX ->
  exists out,
    apply_aggregator_project_count ansi df_joined = Ok out /\
    sum_totals out = Z.of_nat (List.length df_joined) /\
    forall a, In a out -> 1 <= Aggregated.TOTAL_PROJECTS a.
Proof.
  intros Hfit. exists (map counted_row (group_count df_joined)).
  split; [|split].
  - apply aggregator_in_range. intros r _.
    pose proof (group_size_le_length (group_key r) df_joined). lia.
  - rewrite sum_totals_counted.
    change (group_count df_joined) with (aggregate_from [] df_joined).
    rewrite sum_counters_aggregate_from. reflexivity.
  - intros a Ha. apply in_counted_rows in Ha.
    destruct Ha as [r [Hr ->]]. cbn.
    pose proof (group_size_pos r df_joined Hr). lia.
Qed.

Lemma aggregation_totals_add_up_witness :
  exists out,
    apply_aggregator_project_count false
      [Joined.mk 1 (Some "a@***.com") 10; Joined.mk 2 None 12;
       Joined.mk 1 (Some "a@***.com") 11] = Ok out /\
    sum_totals out = 3.
Proof.
  destruct (aggregation_totals_add_up false
              [Joined.mk 1 (Some "a@***.com") 10; Joined.mk 2 None 12;
               Joined.mk 1 (Some "a@***.com") 11])
    as [out [Hout [Hsum _]]].
  - vm_compute. discriminate.
  - exists out. split; [exact Hout | exact Hsum].
Defined.

Lemma map_result_raise {A B} (f : A -> result B) (l : list A) (e : Failure) :
  map_result f l = Raise e -> exists a, In a l /\ f a = Raise e.
Proof.
  induction l as [|a l IH]; cbn; [discriminate|].
  destruct (f a) as [b|e0] eqn:Hfa.
  - destruct (map_result f l) as [bs|e1]; [discriminate|].
    intros [= ->]. destruct (IH eq_refl) as [a' [Ha' Hf]].
    exists a'. split; [now right | exact Hf].
  - intros [= ->]. exists a. split; [now left | exact Hfa].
Qed.

Lemma map_result_all_ok {A B} (f : A -> result B) (l : list A)
      (out : list B) :
  map_result f l = Ok out ->
  forall a, In a l -> exists b, f a = Ok b.
Proof.
  revert out. induction l as [|a l IH]; cbn; intros out Hout x Hx;
    [destruct Hx|].
  destruct (f a) as [b|e] eqn:Hfa; [|discriminate].
  destruct (map_result f l) as [bs|e] eqn:Hl; [|discriminate].
  destruct Hx as [<-|Hx]; [now exists b | exact (IH bs eq_refl x Hx)].
Qed.

Lemma cast_ansi_some (z t : Z) :
  SparkSQL.cast_long_to_int true z = Some t ->
  SparkSQL.INT_MIN <= z <= SparkSQL.INT_MAX.
Proof.
  unfold SparkSQL.cast_long_to_int.
  destruct (SparkSQL.INT_MIN <=? z) eqn:Hlo;
    destruct (z <=? SparkSQL.INT_MAX) eqn:Hhi; cbn; try discriminate.
  intros _. apply Z.leb_le in Hlo, Hhi. now split.
Qed.

Lemma cast_ansi_none (z : Z) :
  SparkSQL.cast_long_to_int true z = None ->
  z < SparkSQL.INT_MIN \/ SparkSQL.INT_MAX < z.
Proof.
  unfold SparkSQL.cast_long_to_int.
  destruct (Z.leb_spec SparkSQL.INT_MIN z);
    destruct (Z.leb_spec z SparkSQL.INT_MAX); cbn; try discriminate;
    intros _; lia.
Qed.

(** X5: in ANSI mode the aggregation either raises [CastOverflow], and
    then some group has more than 2^31 - 1 rows, or it returns, and
    then no group is that large and the rows are exactly the groups'
    keys with their sizes: a total is never silently wrong. *)
Theorem aggregation_ansi_exact_or_raises (df_joined : list Joined.row) :
  match apply_aggregator_project_count true df_joined with
  | Ok out =>
      (forall r, In r df_joined ->
                 group_size (group_key r) df_joined <= SparkSQL.INT_MAX) /\
      forall a,
        In a out <->
        exists r, In r df_joined /\
                  a = Aggregated.mk (Joined.user_id r)
                                    (Joined.MASKED_EMAIL r)
                                    (group_size (group_key r) df_joined)
  | Raise e =>
      e = CastOverflow /\
      exists r, In r df_joined /\
                SparkSQL.INT_MAX < group_size (group_key r) df_joined
  end.
Proof.
  destruct (apply_aggregator_project_count true df_joined) as [out|e]
    eqn:Hagg.
  - assert (Hfit : forall r, In r df_joined ->
                    group_size (group_key r) df_joined <= SparkSQL.INT_MAX).
    { intros r Hr. unfold apply_aggregator_project_count in Hagg.
      destruct (map_result_all_ok _ _ _ Hagg
                  (group_key r, group_size (group_key r) df_joined))
        as [b Hb].
      - apply in_group_count. split; [now exists r | reflexivity].
      - unfold aggregated_row in Hb. cbn [snd] in Hb.
        destruct (SparkSQL.cast_long_to_int true _) as [t|] eqn:Hc;
          [|discriminate].
        apply cast_ansi_some in Hc. lia. }
    split; [exact Hfit|].
    rewrite (aggregator_in_range true df_joined Hfit) in Hagg.
    injection Hagg as <-. intros a. apply in_counted_rows.
  - unfold apply_aggregator_project_count in Hagg.
    apply map_result_raise in Hagg. destruct Hagg as [[k c] [Hg Hrow]].
    unfold aggregated_row in Hrow. cbn [fst snd] in Hrow.
    destruct (SparkSQL.cast_long_to_int true c) eqn:Hc; [discriminate|].
    injection Hrow as <-. split; [reflexivity|].
    apply in_group_count in Hg. destruct Hg as [[r [Hr <-]] ->].
    exists r. split; [exact Hr|].
    apply cast_ansi_none in Hc.
    pose proof (group_size_pos r df_joined Hr).
    unfold SparkSQL.INT_MIN in Hc. lia.
Qed.

Lemma int_wrap_in_range (z : Z) :
  SparkSQL.INT_MIN <= z <= SparkSQL.INT_MAX -> SparkSQL.int_wrap z = z.
Proof.
  unfold SparkSQL.int_wrap, SparkSQL.INT_MIN, SparkSQL.INT_MAX. intros H.
  rewrite Z.mod_small by lia. lia.
Qed.

Lemma cast_legacy (z : Z) :
  SparkSQL.cast_long_to_int false z = Some (SparkSQL.int_wrap z).
Proof.
  unfold SparkSQL.cast_long_to_int.
  destruct (Z.leb_spec SparkSQL.INT_MIN z);
    destruct (Z.leb_spec z SparkSQL.INT_MAX); cbn; trivial.
  now rewrite int_wrap_in_range.
Qed.

(** X6: without ANSI mode the aggregation never raises: it returns one
    row per distinct group, whose total is the group's size reduced to
    32 bits; the total is the size itself when the size fits, and
    differs from it by a multiple of 2^32 otherwise. *)
Theorem aggregation_legacy_wraps (df_joined : list Joined.row) :
  exists out,
    apply_aggregator_project_count false df_joined = Ok out /\
    NoDup (map aggregated_key out) /\
    (forall a,
        In a out <->
        exists r, In r df_joined /\
                  a = Aggregated.mk
                        (Joined.user_id r) (Joined.MASKED_EMAIL r)
                        (SparkSQL.int_wrap
                           (group_size (group_key r) df_joined))) /\
    forall z,
      (SparkSQL.int_wrap z - z) mod 4294967296 = 0 /\
      SparkSQL.INT_MIN <= SparkSQL.int_wrap z <= SparkSQL.INT_MAX /\
      (SparkSQL.INT_MIN <= z <= SparkSQL.INT_MAX ->
       SparkSQL.int_wrap z = z).
Proof.
  set (row := fun g : GroupKey * Z =>
                Aggregated.mk (fst (fst g)) (snd (fst g))
                              (SparkSQL.int_wrap (snd g))).
  exists (map row (group_count df_joined)).
  split; [|split; [|split]].
  - unfold apply_aggregator_project_count. apply map_result_ok.
    intros g _. unfold aggregated_row. now rewrite cast_legacy.
  - rewrite map_map.
    rewrite (map_ext _ fst) by (now intros [[i e] c]).
    apply group_count_nodup.
  - intros a. rewrite in_map_iff. split.
    + intros [[k c] [<- Hg]]. apply in_group_count in Hg.
      destruct Hg as [[r [Hr <-]] ->]. now exists r.
    + intros [r [Hr ->]].
      exists (group_key r, group_size (group_key r) df_joined).
      split; [reflexivity|]. apply in_group_count.
      split; [now exists r | reflexivity].
  - intros z. split; [|split].
    + unfold SparkSQL.int_wrap, SparkSQL.INT_MIN.
      replace ((z - -2147483648) mod 4294967296 + -2147483648 - z)
        with ((z - -2147483648) mod 4294967296 - (z - -2147483648)) by lia.
      rewrite Zminus_mod, Z.mod_mod by discriminate.
      now rewrite Z.sub_diag.
    + apply int_wrap_range.
    + apply int_wrap_in_range.
Qed.

Lemma aggregation_legacy_wraps_witness :
  SparkSQL.int_wrap 2 = 2.
Proof.
  destruct (aggregation_legacy_wraps
              [Joined.mk 1 None 10; Joined.mk 1 None 11])
    as [out [_ [_ [_ Hwrap]]]].
  apply (proj2 (proj2 (Hwrap 2))). vm_compute.
  split; discriminate.
Defined.

(** ** Row order *)

Lemma filter_permutation {A} (f : A -> bool) (l l' : list A) :
  Permutation l l' -> Permutation (filter f l) (filter f l').
Proof.
  induction 1 as [|x l l' _ IH|x y l|l l' l'' _ IH1 _ IH2]; cbn.
  - constructor.
  - destruct (f x); [now constructor | exact IH].
  - destruct (f x), (f y); try apply Permutation_refl.
    apply perm_swap.
  - now transitivity (filter f l').
Qed.

Lemma flat_map_permutation_pointwise {A B} (f g : A -> list B)
      (l : list A) :
  (forall a, Permutation (f a) (g a)) ->
  Permutation (flat_map f l) (flat_map g l).
Proof.
  intros H. induction l as [|a l IH]; cbn; [constructor|].
  now apply Permutation_app.
Qed.

Lemma join_permutation (us us' : list Masked.row)
      (ps ps' : list Project.row) :
  Permutation us us' -> Permutation ps ps' ->
  Permutation (apply_joiner_user_projects us ps)
              (apply_joiner_user_projects us' ps').
Proof.
  intros Hus Hps. unfold apply_joiner_user_projects.
  transitivity
    (flat_map (fun u => map (joined_row u) (filter (join_condition u) ps'))
              us).
  - apply flat_map_permutation_pointwise. intros u.
    apply Permutation_map. now apply filter_permutation.
  - now apply Permutation_flat_map.
Qed.

Lemma group_size_permutation (k : GroupKey) (rows rows' : list Joined.row) :
  Permutation rows rows' -> group_size k rows = group_size k rows'.
Proof.
  intros H. unfold group_size. f_equal.
  apply Permutation_length. now apply filter_permutation.
Qed.

Lemma group_count_permutation (rows rows' : list Joined.row) :
  Permutation rows rows' ->
  Permutation (group_count rows) (group_count rows').
Proof.
  intros H. apply NoDup_Permutation.
  - eapply NoDup_map_inv. apply group_count_nodup.
  - eapply NoDup_map_inv. apply group_count_nodup.
  - intros [k c]. rewrite !in_group_count.
    rewrite (group_size_permutation k _ _ H). split.
    + intros [[r [Hr Hk]] Hc]. split; [|exact Hc].
      exists r. split; [|exact Hk]. now apply (Permutation_in _ H).
    + intros [[r [Hr Hk]] Hc]. split; [|exact Hc].
      exists r. split; [|exact Hk].
      now apply (Permutation_in _ (Permutation_sym H)).
Qed.

Lemma map_result_permutation {A B} (f : A -> result B) (l l' : list A) :
  Permutation l l' ->
  forall out,
    map_result f l = Ok out ->
    exists out', map_result f l' = Ok out' /\ Permutation out out'.
Proof.
  induction 1 as [|x l l' _ IH|x y l|l l' l'' _ IH1 _ IH2]; intros out; cbn.
  - intros [= <-]. exists []. split; [reflexivity | constructor].
  - destruct (f x) as [b|e]; [|discriminate].
    destruct (map_result f l) as [bs|e]; [|discriminate].
    intros [= <-]. destruct (IH bs eq_refl) as [bs' [-> Hperm]].
    exists (b :: bs'). split; [reflexivity | now constructor].
  - destruct (f y) as [by_|e]; [|discriminate].
    destruct (f x) as [bx|e]; [|discriminate].
    destruct (map_result f l) as [bs|e]; [|discriminate].
    intros [= <-]. exists (bx :: by_ :: bs).
    split; [reflexivity | apply perm_swap].
  - intros Hout. destruct (IH1 out Hout) as [out1 [H1 P1]].
    destruct (IH2 out1 H1) as [out2 [H2 P2]].
    exists out2. split; [exact H2 | now transitivity out1].
Qed.

Lemma mask_permutation (us us' : list User.row) :
  Permutation us us' ->
  Permutation (apply_expression_mask_data us)
              (apply_expression_mask_data us').
Proof. unfold apply_expression_mask_data. apply Permutation_map. Qed.

(** X7: the transforms do not depend on the order of the source rows:
    if the users and the projects are rearranged, masking, join and
    aggregation composed return a result exactly when they did before,
    and its rows are a rearrangement of the earlier result's. *)
Theorem transform_respects_row_order
        (ansi : bool) (df_users df_users' : list User.row)
        (df_projects df_projects' : list Project.row)
        (out : list Aggregated.row) :
  Permutation df_users df_users' ->
  Permutation df_projects df_projects' ->
  transform ansi df_users df_projects = Ok out ->
  exists out',
    transform ansi df_users' df_projects' = Ok out' /\
    Permutation out out'.
Proof.
  intros Hus Hps. unfold transform, apply_aggregator_project_count.
  apply map_result_permutation, group_count_permutation, join_permutation;
    [now apply mask_permutation | exact Hps].
Qed.

Lemma transform_respects_row_order_witness :
  exists out',
    transform true
      [User.mk 2 (Some "b@y.com"); User.mk 1 (Some "a@x.com")]
      [Project.mk 12 (Some 2); Project.mk 10 (Some 1); Project.mk 11 (Some 1)]
    = Ok out' /\
    Permutation scenario_expected out'.
Proof.
  apply (transform_respects_row_order true scenario_users _
                                      scenario_projects _ scenario_expected).
  - apply perm_swap.
  - apply Permutation_sym, (Permutation_cons_app [_; _] []).
    apply Permutation_refl.
  - reflexivity.
Defined.

(** ** One row per user *)














(** ** The run on the concrete world *)

(** The run, case by case. *)
Lemma etl_run_cases (url u p : string) (w : World) :
  run_specforge_analytics_etl url u p (w, []) =
  if engine_available w then
    let started := set_session true w in
    if accepts w url u p then
      match users (database w) with
      | None =>
          (Raise (SourceUnavailable "public.users"),
           (set_session false (connect started),
            (firstn 2 pipeline_order ++ [Stopped])%list))
      | Some t_users =>
          match projects (database w) with
          | None =>
              (Raise (SourceUnavailable "public.projects"),
               (set_session false (connect (connect started)),
                (firstn 3 pipeline_order ++ [Stopped])%list))
          | Some t_projects =>
              match transform (ansi_enabled w) (select_users t_users)
                              (select_projects t_projects) with
              | Raise e =>
                  (Raise e,
                   (set_session false (connect (connect started)),
                    (firstn 6 pipeline_order ++ [Stopped])%list))
              | Ok df_aggregated =>
                  if sink_writable w then
                    (Ok tt,
                     (set_session false
                        (set_database
                           (mkDatabase (Some t_users) (Some t_projects)
                                       (Some df_aggregated))
                           (connect (connect (connect started)))),
                      (pipeline_order ++ [Stopped])%list))
                  else
                    (Raise SinkWriteFailed,
                     (set_session false
                        (connect (connect (connect started))),
                      (pipeline_order ++ [Stopped])%list))
              end
          end
      end
    else
      (Raise (SourceUnavailable "public.users"),
       (set_session false (connect started),
        (firstn 2 pipeline_order ++ [Stopped])%list))
  else (Raise EngineInitFailed, (w, [Invoked Engine])).
Proof.
  unfold run_specforge_analytics_etl, run_pipeline, pipeline_body, bind,
    invoke, teardown, initialize_spark, read_source_users,
    read_source_projects, write_target_user_project_analytics, mask_stage,
    join_stage, aggregate_stage, pure_stage, authorized, spark_stop,
    transform.
  cbn. destruct (engine_available w); cbn; [|reflexivity].
  destruct (accepts w url u p) eqn:Hacc; cbn; [|reflexivity].
  destruct (users (database w)) as [tu|] eqn:Hu; cbn; [|reflexivity].
  rewrite Hacc. cbn.
  destruct (projects (database w)) as [tp|] eqn:Hp; cbn; [|reflexivity].
  destruct (apply_aggregator_project_count _ _) as [out|e]; cbn;
    [|reflexivity].
  rewrite Hacc. cbn. rewrite Hu, Hp.
  destruct (sink_writable w); reflexivity.
Qed.

Lemma etl_success_iff (url u p : string) (w : World) :
  is_ok (fst (run_specforge_analytics_etl url u p (w, []))) = true
  <-> run_can_succeed url u p w.
Proof.
  rewrite etl_run_cases. unfold run_can_succeed. split.
  - destruct (engine_available w); [|discriminate].
    destruct (accepts w url u p); [|discriminate].
    cbv zeta.
    destruct (users (database w)) as [tu|]; [|discriminate].
    destruct (projects (database w)) as [tp|]; [|discriminate].
    destruct (transform _ _ _) as [out|e] eqn:Ht; [|discriminate].
    destruct (sink_writable w); [|discriminate].
    intros _. repeat split. now exists tu, tp, out.
  - intros [-> [-> [-> [tu [tp [out [-> [-> ->]]]]]]]]. reflexivity.
Qed.

(** X9: a run succeeds exactly when the engine starts, the server lets
    the credentials in, both source tables exist, the transforms return
    a result on their rows, and the destination can be replaced. *)
Theorem etl_succeeds_exactly_when_it_can
        (jdbc_url db_user db_password : string) (w : World) :
  is_ok (fst (run_specforge_analytics_etl jdbc_url db_user db_password
                                          (w, []))) = true
  <-> run_can_succeed jdbc_url db_user db_password w.
Proof.
  split; intros H.
  - now apply etl_success_iff.
  - now apply etl_success_iff.
Qed.

Lemma etl_succeeds_exactly_when_it_can_witness :
  is_ok (fst (run_specforge_analytics_etl
                "jdbc:postgresql://localhost:5432/SpecForge_DB"
                "admin" "password123" (scenario_world, []))) = true.
Proof.
  apply (proj2 (etl_succeeds_exactly_when_it_can
                  "jdbc:postgresql://localhost:5432/SpecForge_DB"
                  "admin" "password123" scenario_world)).
  repeat split.
  exists [UsersTable.mk 1 (Some "a@x.com") [("name", "Ann")];
          UsersTable.mk 2 (Some "b@y.com") [("name", "Bob")]],
         [ProjectsTable.mk 10 (Some 1) [("title", "p10")];
          ProjectsTable.mk 11 (Some 1) [];
          ProjectsTable.mk 12 (Some 2) []],
         scenario_expected.
  repeat split.
Defined.

(** X10: a run that fails before it reaches the sink writer leaves all
    three tables as they were, the destination included; and if the
    engine had started, the session is stopped when the run ends. *)
Theorem failed_run_leaves_tables_untouched
        (jdbc_url db_user db_password : string) (w w' : World)
        (e : Failure) (tr : list Event) :
  run_specforge_analytics_etl jdbc_url db_user db_password (w, [])
  = (Raise e, (w', tr)) ->
  ~ In (Invoked SinkWriter) tr ->
  database w' = database w /\
  (engine_available w = true -> session_running w' = false) /\
  (engine_available w = false -> w' = w).
Proof.
  rewrite etl_run_cases.
  destruct (engine_available w);
    [|intros [= _ <- _] _; repeat split; discriminate].
  cbv zeta.
  destruct (accepts w jdbc_url db_user db_password);
    [|intros [= _ <- _] _; repeat split; discriminate].
  destruct (users (database w)) as [tu|];
    [|intros [= _ <- _] _; repeat split; discriminate].
  destruct (projects (database w)) as [tp|];
    [|intros [= _ <- _] _; repeat split; discriminate].
  destruct (transform _ _ _) as [out|e0];
    [|intros [= _ <- _] _; repeat split; discriminate].
  destruct (sink_writable w); [discriminate|].
  intros [= _ _ <-] Hno. exfalso. apply Hno. cbn. tauto.
Qed.

Lemma failed_run_leaves_tables_untouched_witness :
  database
    (fst (snd (run_specforge_analytics_etl
                 "jdbc:postgresql://localhost:5432/SpecForge_DB"
                 "admin" "wrong" (scenario_world, []))))
  = scenario_database.
Proof.
  apply (failed_run_leaves_tables_untouched
           "jdbc:postgresql://localhost:5432/SpecForge_DB" "admin" "wrong"
           scenario_world _ (SourceUnavailable "public.users")
           (firstn 2 pipeline_order ++ [Stopped])%list).
  - reflexivity.
  - cbn. intros [H|[H|[H|[]]]]; discriminate.
Defined.

(** X11: when the engine cannot start, the run raises
    [EngineInitFailed] after entering the engine alone: no table is
    read, no connection is attempted, nothing is stopped, and the
    world is exactly as it was. *)
Theorem run_without_engine_touches_nothing
        (jdbc_url db_user db_password : string) (w : World) :
  engine_available w = false ->
  run_specforge_analytics_etl jdbc_url db_user db_password (w, [])
  = (Raise EngineInitFailed, (w, [Invoked Engine])).
Proof. intros H. now rewrite etl_run_cases, H. Qed.

Lemma run_without_engine_touches_nothing_witness :
  run_specforge_analytics_etl
    "jdbc:postgresql://localhost:5432/SpecForge_DB" "admin" "password123"
    (mkWorld false true (fun _ _ _ => true) true scenario_database false 0,
     [])
  = (Raise EngineInitFailed,
     (mkWorld false true (fun _ _ _ => true) true scenario_database false 0,
      [Invoked Engine])).
Proof.
  apply run_without_engine_touches_nothing. reflexivity.
Defined.

Lemma join_without_match (us : list Masked.row) (ps : list Project.row) :
  (forall u p, In u us -> In p ps ->
               Project.p_user_id p <> Some (Masked.user_id u)) ->
  apply_joiner_user_projects us ps = [].
Proof.
  intros Hno.
  destruct (apply_joiner_user_projects us ps) as [|r l] eqn:Hj;
    [reflexivity|].
  assert (Hr : In r (apply_joiner_user_projects us ps))
    by (rewrite Hj; now left).
  apply in_join in Hr. destruct Hr as [u [p [Hu [Hp [Ho _]]]]].
  exfalso. exact (Hno u p Hu Hp Ho).
Qed.

Lemma transform_without_match (ansi : bool) (t_users : list UsersTable.row)
      (t_projects : list ProjectsTable.row) :
  (forall u p, In u t_users -> In p t_projects ->
               ProjectsTable.user_id p <> Some (UsersTable.id u)) ->
  transform ansi (select_users t_users) (select_projects t_projects)
  = Ok [].
Proof.
  intros Hno. unfold transform. rewrite join_without_match; [reflexivity|].
  intros m q Hm Hq.
  unfold apply_expression_mask_data, select_users in Hm.
  rewrite map_map in Hm. apply in_map_iff in Hm.
  destruct Hm as [u [<- Hu]].
  unfold select_projects in Hq. apply in_map_iff in Hq.
  destruct Hq as [p [<- Hp]]. cbn. now apply Hno.
Qed.

(** X12: when no project row refers to a user, in particular when
    either source table is empty, a run that goes through leaves the
    destination table empty: whatever it held before is gone. *)
Theorem run_without_matches_empties_destination
        (jdbc_url db_user db_password : string) (w : World)
        (t_users : list UsersTable.row)
        (t_projects : list ProjectsTable.row) :
  engine_available w = true ->
  accepts w jdbc_url db_user db_password = true ->
  sink_writable w = true ->
  users (database w) = Some t_users ->
  projects (database w) = Some t_projects ->
  (forall u p, In u t_users -> In p t_projects ->
               ProjectsTable.user_id p <> Some (UsersTable.id u)) ->
  exists w' tr,
    run_specforge_analytics_etl jdbc_url db_user db_password (w, [])
    = (Ok tt, (w', tr)) /\
    USER_PROJECT_ANALYTICS (database w') = Some [].
Proof.
  intros Hengine Haccepts Hsink Hu Hp Hno.
  rewrite etl_run_cases, Hengine, Haccepts, Hu, Hp, Hsink.
  cbv zeta. rewrite (transform_without_match _ _ _ Hno).
  eexists _, _. split; reflexivity.
Qed.

Lemma run_without_matches_empties_destination_witness :
  exists w' tr,
    run_specforge_analytics_etl
      "jdbc:postgresql://localhost:5432/SpecForge_DB" "admin" "password123"
      (mkWorld true false (fun _ _ _ => true) true
               (mkDatabase (Some [UsersTable.mk 1 (Some "a@x.com") []])
                           (Some [])
                           (Some [Aggregated.mk 7 None 3]))
               false 0, [])
    = (Ok tt, (w', tr)) /\
    USER_PROJECT_ANALYTICS (database w') = Some [].
Proof.
  apply (run_without_matches_empties_destination
           "jdbc:postgresql://localhost:5432/SpecForge_DB" "admin"
           "password123" _ [UsersTable.mk 1 (Some "a@x.com") []] []);
    try reflexivity.
  intros u p _ [].
Defined.

(** ** The entry point with parameters *)

(** X13: started with at least three parameters, the program prints no
    usage text and runs the pipeline on the first three: the world it
    leaves and the components it enters are those of
    [run_specforge_analytics_etl] on these three, started in the given
    world with nothing entered yet.  Its exit status is 0 when that run
    returns and 1 when it raises, so it is 0 exactly when the run can
    succeed; parameters after the third and the script name make no
    difference. *)
Theorem main_runs_on_first_three_parameters
        (script jdbc_url db_user db_password : string)
        (more : list string) (w : World) :
  let exit :=
    main (script :: jdbc_url :: db_user :: db_password :: more) w in
  let ran :=
    run_specforge_analytics_etl jdbc_url db_user db_password (w, []) in
  stdout exit = [] /\
  final_world exit = fst (snd ran) /\
  events exit = snd (snd ran) /\
  exit_status exit = (if is_ok (fst ran) then 0 else 1) /\
  (exit_status exit = 0 <->
   run_can_succeed jdbc_url db_user db_password w) /\
  (exit_status exit = 0 \/ exit_status exit = 1) /\
  (forall script', exit = main [script'; jdbc_url; db_user; db_password] w).
Proof.
  cbv zeta. unfold main. cbn [List.length Nat.ltb Nat.leb nth].
  pose proof (etl_success_iff jdbc_url db_user db_password w) as Hiff.
  destruct (run_specforge_analytics_etl jdbc_url db_user db_password (w, []))
    as [r st]. cbn [exit_status stdout final_world events fst snd] in *.
  split; [reflexivity|]. split; [reflexivity|]. split; [reflexivity|].
  split; [reflexivity|]. split; [|split].
  - rewrite <- Hiff. destruct (is_ok r); split; trivial; discriminate.
  - destruct (is_ok r); [now left | now right].
  - reflexivity.
Qed.

Lemma main_runs_on_first_three_parameters_witness :
  exit_status
    (main ["specforge_analytics_etl.py";
           "jdbc:postgresql://localhost:5432/SpecForge_DB";
           "admin"; "password123"; "--verbose"] scenario_world) = 0 /\
  events
    (main ["specforge_analytics_etl.py";
           "jdbc:postgresql://localhost:5432/SpecForge_DB";
           "admin"; "password123"; "--verbose"] scenario_world)
  = (pipeline_order ++ [Stopped])%list /\
  USER_PROJECT_ANALYTICS
    (database
       (final_world
          (main ["specforge_analytics_etl.py";
                 "jdbc:postgresql://localhost:5432/SpecForge_DB";
                 "admin"; "password123"; "--verbose"] scenario_world)))
  = Some scenario_expected.
Proof.
  destruct (main_runs_on_first_three_parameters
              "specforge_analytics_etl.py"
              "jdbc:postgresql://localhost:5432/SpecForge_DB"
              "admin" "password123" ["--verbose"] scenario_world)
    as [_ [Hworld [Hevents [_ [Hstatus _]]]]].
  destruct (etl_success
              "jdbc:postgresql://localhost:5432/SpecForge_DB"
              "admin" "password123" scenario_world
              [UsersTable.mk 1 (Some "a@x.com") [("name", "Ann")];
               UsersTable.mk 2 (Some "b@y.com") [("name", "Bob")]]
              [ProjectsTable.mk 10 (Some 1) [("title", "p10")];
               ProjectsTable.mk 11 (Some 1) [];
               ProjectsTable.mk 12 (Some 2) []]
              scenario_expected
              eq_refl eq_refl eq_refl eq_refl eq_refl eq_refl)
    as [w' [Hrun Hdb]].
  rewrite Hrun in Hworld, Hevents. cbn [fst snd] in Hworld, Hevents.
  split; [|split].
  - apply Hstatus. repeat split.
    exists [UsersTable.mk 1 (Some "a@x.com") [("name", "Ann")];
            UsersTable.mk 2 (Some "b@y.com") [("name", "Bob")]],
           [ProjectsTable.mk 10 (Some 1) [("title", "p10")];
            ProjectsTable.mk 11 (Some 1) [];
            ProjectsTable.mk 12 (Some 2) []],
           scenario_expected.
    repeat split.
  - exact Hevents.
  - rewrite Hworld, Hdb. reflexivity.
Defined.

(** ** Running again *)

(** X14: what a successful run leaves in the destination depends on
    the source tables alone, not on what the destination held before:
    running again on the world the run left behind succeeds again and
    leaves every table as the first run left it. *)
Theorem rerun_leaves_same_tables
        (jdbc_url db_user db_password : string) (w w1 : World)
        (tr1 : list Event) :
  run_specforge_analytics_etl jdbc_url db_user db_password (w, [])
  = (Ok tt, (w1, tr1)) ->
  exists w2 tr2,
    run_specforge_analytics_etl jdbc_url db_user db_password (w1, [])
    = (Ok tt, (w2, tr2)) /\
    database w2 = database w1.
Proof.
  rewrite etl_run_cases.
  destruct (engine_available w) eqn:Hengine; [|discriminate].
  cbv zeta.
  destruct (accepts w jdbc_url db_user db_password) eqn:Hacc;
    [|discriminate].
  destruct (users (database w)) as [tu|]; [|discriminate].
  destruct (projects (database w)) as [tp|]; [|discriminate].
  destruct (transform _ _ _) as [out|e] eqn:Ht; [|discriminate].
  destruct (sink_writable w) eqn:Hsink; [|discriminate].
  intros [= <- _].
  rewrite etl_run_cases. cbn. rewrite Hengine, Hacc, Ht, Hsink.
  eexists _, _. split; reflexivity.
Qed.

Lemma rerun_leaves_same_tables_witness :
  exists w1 w2 tr1 tr2,
    run_specforge_analytics_etl
      "jdbc:postgresql://localhost:5432/SpecForge_DB" "admin" "password123"
      (scenario_world, []) = (Ok tt, (w1, tr1)) /\
    run_specforge_analytics_etl
      "jdbc:postgresql://localhost:5432/SpecForge_DB" "admin" "password123"
      (w1, []) = (Ok tt, (w2, tr2)) /\
    database w2 = database w1.
Proof.
  destruct (etl_success
              "jdbc:postgresql://localhost:5432/SpecForge_DB"
              "admin" "password123" scenario_world
              [UsersTable.mk 1 (Some "a@x.com") [("name", "Ann")];
               UsersTable.mk 2 (Some "b@y.com") [("name", "Bob")]]
              [ProjectsTable.mk 10 (Some 1) [("title", "p10")];
               ProjectsTable.mk 11 (Some 1) [];
               ProjectsTable.mk 12 (Some 2) []]
              scenario_expected
              eq_refl eq_refl eq_refl eq_refl eq_refl eq_refl)
    as [w1 [Hrun _]].
  destruct (rerun_leaves_same_tables _ _ _ _ _ _ Hrun)
    as [w2 [tr2 [Hrun2 Hdb]]].
  exists w1, w2, (pipeline_order ++ [Stopped])%list, tr2.
  split; [exact Hrun|]. split; [exact Hrun2 | exact Hdb].
Defined.
